(** * Talk2Repo: a shallow embedding of [main.py]

    The script ingests a GitHub repository into a vector store and answers
    questions about it with an LLM.  Its functions are embedded below in
    the order of the source.  Python values are modelled as follows:

    - [str] is [string]; a character is an [ascii], read as a code point
      below 256;
    - [int] is [Z];
    - a raised exception is the [Raise] case of [result];
    - the outside world (terminal, HTTP, LLM endpoint, vector store) is a
      [World] threaded through every effectful function, with the replies
      of the external services supplied by an [Env] of oracles. *)

From Stdlib Require Import ZArith Ascii String DecimalString.
From stdpp Require Import base gmap strings list.

Local Open Scope Z_scope.

(** ** Exceptions and results *)

Inductive Exc : Type :=
  | ValueError (msg : string)
  | EOFError
  | LibraryError (cls msg : string).

Inductive result (A : Type) : Type :=
  | Ok (a : A)
  | Raise (e : Exc).
Arguments Ok {A} a.
Arguments Raise {A} e.

(** The error of [get_repo_info], called [InvalidRepositoryURL] in the
    specification. *)
Definition InvalidRepositoryURL : Exc :=
  ValueError "Invalid GitHub repository URL.".

(** ** Python string primitives *)

Definition ascii_code (c : ascii) : nat := nat_of_ascii c.

Definition is_slash (c : ascii) : bool := Ascii.eqb c "/".

Definition str_nonempty (s : string) : bool :=
  match s with "" => false | String _ _ => true end.

(** [s.lstrip(chars)], the set [chars] given as a predicate. *)
Fixpoint lstrip (p : ascii → bool) (s : string) : string :=
  match s with
  | "" => ""
  | String c s' => if p c then lstrip p s' else s
  end.

(** [s.rstrip(chars)]. *)
Fixpoint rstrip (p : ascii → bool) (s : string) : string :=
  match s with
  | "" => ""
  | String c s' =>
      let r := rstrip p s' in
      if p c && negb (str_nonempty r) then "" else String c r
  end.

(** [s.strip(chars)]. *)
Definition strip (p : ascii → bool) (s : string) : string :=
  rstrip p (lstrip p s).

(** [s.split(sep)] for a one-character separator: never the empty list,
    empty segments are kept. *)
Fixpoint split (sep : ascii) (s : string) : list string :=
  match s with
  | "" => [""]
  | String c s' =>
      if Ascii.eqb c sep then "" :: split sep s'
      else match split sep s' with
           | h :: t => String c h :: t
           | [] => [String c ""]
           end
  end.

(** [s.startswith(t)]. *)
Fixpoint startswith (s t : string) : bool :=
  match t, s with
  | "", _ => true
  | String _ _, "" => false
  | String b t', String a s' => Ascii.eqb a b && startswith s' t'
  end.

(** [s.endswith(t)]: [t] is one of the suffixes of [s]. *)
Fixpoint endswith (s t : string) : bool :=
  String.eqb s t ||
  match s with
  | "" => false
  | String _ s' => endswith s' t
  end.

(** [s.replace(old, new)] for a non-empty [old]: every occurrence, found
    left to right without overlap, is replaced.  [skip] counts the
    characters of a match that are still to be dropped. *)
Fixpoint replace_from (old new : string) (skip : nat) (s : string) : string :=
  match s with
  | "" => ""
  | String c s' =>
      match skip with
      | S k => replace_from old new k s'
      | O =>
          if startswith s old
          then new +:+ replace_from old new (String.length old - 1) s'
          else String c (replace_from old new 0 s')
      end
  end.

Definition replace (old new s : string) : string := replace_from old new 0 s.

(** [sep.join(parts)]. *)
Fixpoint join (sep : string) (parts : list string) : string :=
  match parts with
  | [] => ""
  | [x] => x
  | x :: rest => x +:+ sep +:+ join sep rest
  end.

(** Characters for which [str.isspace] holds, below code point 256. *)
Definition is_space (c : ascii) : bool :=
  let n := ascii_code c in
  ((9 <=? n) && (n <=? 13) || (28 <=? n) && (n <=? 32)
   || (n =? 133) || (n =? 160))%nat.

(** [s.strip()] with no argument. *)
Definition strip_ws (s : string) : string := strip is_space s.

(** ** [urllib.parse.urlparse]

    The parser of the standard library is not part of the program: the
    program is embedded over an arbitrary [urlparse], and the definition
    [py_urlparse] below follows the library's [urlsplit] and [urlparse]
    so that the program can be run on concrete URLs.  The library's extra
    validation of bracketed (IPv6) and non-ASCII hosts is not reproduced:
    [py_urlparse] only rejects unbalanced brackets. *)

Record ParseResult : Type := {
  pr_scheme : string;
  pr_netloc : string;
  pr_path : string;
  pr_params : string;
  pr_query : string;
  pr_fragment : string
}.

(** The longest prefix of [s] without a character satisfying [p], and the
    rest of [s] from the first such character on. *)
Fixpoint break_at (p : ascii → bool) (s : string) : string * string :=
  match s with
  | "" => ("", "")
  | String c s' =>
      if p c then ("", s)
      else let '(a, b) := break_at p s' in (String c a, b)
  end.

Fixpoint str_forallb (p : ascii → bool) (s : string) : bool :=
  match s with
  | "" => true
  | String c s' => p c && str_forallb p s'
  end.

Fixpoint str_existsb (p : ascii → bool) (s : string) : bool :=
  match s with
  | "" => false
  | String c s' => p c || str_existsb p s'
  end.

Fixpoint str_filter (p : ascii → bool) (s : string) : string :=
  match s with
  | "" => ""
  | String c s' => if p c then String c (str_filter p s') else str_filter p s'
  end.

Fixpoint str_map (f : ascii → ascii) (s : string) : string :=
  match s with
  | "" => ""
  | String c s' => String (f c) (str_map f s')
  end.

Definition is_ascii_upper (c : ascii) : bool :=
  ((65 <=? ascii_code c) && (ascii_code c <=? 90))%nat.
Definition is_ascii_lower (c : ascii) : bool :=
  ((97 <=? ascii_code c) && (ascii_code c <=? 122))%nat.
Definition is_ascii_alpha (c : ascii) : bool :=
  is_ascii_upper c || is_ascii_lower c.
Definition is_ascii_digit (c : ascii) : bool :=
  ((48 <=? ascii_code c) && (ascii_code c <=? 57))%nat.

Definition ascii_lower (c : ascii) : ascii :=
  if is_ascii_upper c then ascii_of_nat (ascii_code c + 32) else c.

(** [scheme_chars] of [urllib.parse]. *)
Definition is_scheme_char (c : ascii) : bool :=
  is_ascii_alpha c || is_ascii_digit c
  || Ascii.eqb c "+" || Ascii.eqb c "-" || Ascii.eqb c ".".

(** [uses_params] of [urllib.parse]. *)
Definition uses_params : list string :=
  [""; "ftp"; "hdl"; "prospero"; "http"; "imap"; "https"; "shttp"; "rtsp";
   "rtspu"; "sip"; "sips"; "mms"; "sftp"; "tel"].

Definition is_c0_or_space (c : ascii) : bool := (ascii_code c <=? 32)%nat.
Definition is_tab_or_newline (c : ascii) : bool :=
  ((ascii_code c =? 9) || (ascii_code c =? 10) || (ascii_code c =? 13))%nat.

Definition str_tail (s : string) : string :=
  match s with "" => "" | String _ s' => s' end.

Definition has_char (c : ascii) (s : string) : bool :=
  str_existsb (Ascii.eqb c) s.

(** The hexadecimal digit of a number below 16. *)
Definition hex_digit (n : nat) : ascii :=
  match get n "0123456789abcdef" with
  | Some c => c
  | None => "0"%char
  end.

(** [_splitparams]: the parameters are cut at the first [;] of the last
    path segment. *)
Fixpoint splitparams (url : string) : string * string :=
  match url with
  | "" => ("", "")
  | String c s' =>
      if has_char "/" s' then
        let '(a, b) := splitparams s' in (String c a, b)
      else
        let '(a, b) := break_at (Ascii.eqb ";") url in (a, str_tail b)
  end.

Definition py_urlparse (url : string) : result ParseResult :=
  let url := lstrip is_c0_or_space url in
  let url := str_filter (λ c, negb (is_tab_or_newline c)) url in
  let '(scheme, url) :=
    let '(pre, rest) := break_at (Ascii.eqb ":") url in
    match pre, rest with
    | String c0 _, String _ rest' =>
        if is_ascii_alpha c0 && str_forallb is_scheme_char pre
        then (str_map ascii_lower pre, rest')
        else ("", url)
    | _, _ => ("", url)
    end in
  let '(netloc, url) :=
    if startswith url "//"
    then break_at (λ c, Ascii.eqb c "/" || Ascii.eqb c "?" || Ascii.eqb c "#")
                  (str_tail (str_tail url))
    else ("", url) in
  if xorb (has_char "[" netloc) (has_char "]" netloc)
  then Raise (ValueError "Invalid IPv6 URL")
  else
    let '(url, fragment) :=
      let '(a, b) := break_at (Ascii.eqb "#") url in (a, str_tail b) in
    let '(url, query) :=
      let '(a, b) := break_at (Ascii.eqb "?") url in (a, str_tail b) in
    let '(url, params) :=
      if bool_decide (scheme ∈ uses_params) && has_char ";" url
      then splitparams url else (url, "") in
    Ok {| pr_scheme := scheme; pr_netloc := netloc; pr_path := url;
          pr_params := params; pr_query := query; pr_fragment := fragment |}.

(** ** [get_repo_info] (main.py, lines 18-28) *)

Definition get_repo_info (urlparse : string → result ParseResult)
    (repo_url : string) : result (string * string) :=
  match urlparse repo_url with
  | Raise e => Raise e
  | Ok parsed_url =>
      let path_parts := split "/" (strip is_slash (pr_path parsed_url)) in
      if bool_decide (length path_parts < 2)%nat
      then Raise InvalidRepositoryURL
      else
        let owner := path_parts !!! 0%nat in
        let repo := replace ".git" "" (path_parts !!! 1%nat) in
        Ok (owner, repo)
  end.

(** ** The outside world *)

(** An entry of a listing of the repository host: the fields of the JSON
    object that the program reads. *)
Record Item : Type := {
  item_type : string;
  item_path : string;
  item_download_url : string
}.

(** The JSON body of a listing: a list of entries, or a single entry. *)
Inductive Listing : Type :=
  | JList (items : list Item)
  | JItem (item : Item).

(** What the program reads of a [requests.Response]. *)
Record Response : Type := {
  status_code : Z;
  resp_json : result Listing;
  resp_text : string
}.

(** A chat-completion request. The temperature is kept as the decimal
    literal of the source. *)
Record ChatRequest : Type := {
  chat_model : string;
  chat_messages : list (string * string);
  chat_max_tokens : Z;
  chat_temperature : string
}.

(** A document of a collection of the vector store. *)
Record StoredDoc : Type := {
  sd_id : string;
  sd_document : string;
  sd_metadata : gmap string string
}.

(** The calls received by the vector store. *)
Inductive StoreCall : Type :=
  | CallGetOrCreate (name : string)
  | CallAdd (name : string) (documents : list string)
            (metadatas : list (gmap string string)) (ids : list string)
  | CallQuery (name : string) (query_texts : list string) (n_results : Z).

Record World : Type := {
  stdin : list string;            (* lines still to be read by [input] *)
  stdout : list string;           (* what was printed, oldest first *)
  http_log : list string;         (* URLs requested, oldest first *)
  llm_log : list ChatRequest;     (* completion requests, oldest first *)
  store_log : list StoreCall;     (* vector store calls, oldest first *)
  db : gmap string (list StoredDoc)  (* the persistent collections *)
}.

(** A tokenizer, as returned by [encoding_for_model(name)].  Encoding a
    text can raise (the library refuses a text that holds the text of a
    special token); decoding tokens that come from an encoding does not
    (bytes that form no character are replaced). *)
Record Tokenizer : Type := {
  encode : string → result (list Z);
  decode : list Z → string
}.

(** The replies of the external services.  Each oracle sees the whole
    history of the run through the [World].  Obtaining the tokenizer can
    raise (its vocabulary is loaded when it is first asked for); the
    search of the store is asked for a positive number of results
    only. *)
Record Env : Type := {
  http_reply : World → string → list (string * string) → result Response;
  chat_reply : World → ChatRequest → result string;
  encoding_for_model : string → result Tokenizer;
  collection_error : World → string → option Exc;
  add_reply : list StoredDoc → list StoredDoc → result (list StoredDoc);
  query_reply : list StoredDoc → list string → Z → result (list (list string))
}.

(** ** The monad of effectful code: state and exceptions *)

Definition M (A : Type) : Type := World → result A * World.

Definition ret {A} (a : A) : M A := λ w, (Ok a, w).
Definition raise {A} (e : Exc) : M A := λ w, (Raise e, w).
Definition bind {A B} (m : M A) (k : A → M B) : M B :=
  λ w, match m w with
       | (Ok a, w') => k a w'
       | (Raise e, w') => (Raise e, w')
       end.
(** A value or an exception computed without effect. *)
Definition of_result {A} (r : result A) : M A := λ w, (r, w).
(** [try: m  except Exception as e: h e]. *)
Definition try_except {A} (m : M A) (h : Exc → M A) : M A :=
  λ w, match m w with
       | (Ok a, w') => (Ok a, w')
       | (Raise e, w') => h e w'
       end.

Declare Scope prog_scope.
Delimit Scope prog_scope with prog.
Notation "x <- m ;; k" := (bind m (λ x, k))
  (at level 20, m at level 99, k at level 200, only parsing) : prog_scope.
Notation "m ;; k" := (bind m (λ _, k))
  (at level 100, k at level 200, only parsing, right associativity)
  : prog_scope.
Local Open Scope prog_scope.

(** [[f x for x in xs]] for an effectful [f]. *)
Fixpoint map_M {A B} (f : A → M B) (xs : list A) : M (list B) :=
  match xs with
  | [] => ret []
  | x :: rest => y <- f x ;; ys <- map_M f rest ;; ret (y :: ys)
  end.

Definition nl : string := String "010" "".

(** [str(n)] for an integer. *)
Definition str_of_Z (n : Z) : string := NilZero.string_of_int (Z.to_int n).

(** [str(e)] for an exception. *)
Definition exc_str (e : Exc) : string :=
  match e with
  | ValueError msg => msg
  | EOFError => ""
  | LibraryError _ msg => msg
  end.

Definition set_stdin (l : list string) (w : World) : World :=
  {| stdin := l; stdout := stdout w; http_log := http_log w;
     llm_log := llm_log w; store_log := store_log w; db := db w |}.
Definition set_stdout (l : list string) (w : World) : World :=
  {| stdin := stdin w; stdout := l; http_log := http_log w;
     llm_log := llm_log w; store_log := store_log w; db := db w |}.
Definition set_http_log (l : list string) (w : World) : World :=
  {| stdin := stdin w; stdout := stdout w; http_log := l;
     llm_log := llm_log w; store_log := store_log w; db := db w |}.
Definition set_llm_log (l : list ChatRequest) (w : World) : World :=
  {| stdin := stdin w; stdout := stdout w; http_log := http_log w;
     llm_log := l; store_log := store_log w; db := db w |}.
Definition set_store_log (l : list StoreCall) (w : World) : World :=
  {| stdin := stdin w; stdout := stdout w; http_log := http_log w;
     llm_log := llm_log w; store_log := l; db := db w |}.
Definition set_db (d : gmap string (list StoredDoc)) (w : World) : World :=
  {| stdin := stdin w; stdout := stdout w; http_log := http_log w;
     llm_log := llm_log w; store_log := store_log w; db := d |}.

(** [print(s)]. *)
Definition print (s : string) : M unit :=
  λ w, (Ok tt, set_stdout (stdout w ++ [s]) w).

(** [input(prompt)]: the prompt is written, a line is read; at the end of
    the input, [EOFError]. *)
Definition input (prompt : string) : M string :=
  λ w, let w1 := set_stdout (stdout w ++ [prompt]) w in
       match stdin w1 with
       | [] => (Raise EOFError, w1)
       | line :: rest => (Ok line, set_stdin rest w1)
       end.

(** ** The nested tree of [get_contents] and the records of
    [flatten_contents] *)

(** A node is the dictionary built by [get_contents]: its ['type'] is the
    constructor. *)
#[warnings="-register-all"]
Inductive TreeNode : Type :=
  | FileNode (node_path node_content : string)
  | DirNode (node_path : string) (node_contents : list TreeNode).

Record FlatDocument : Type := {
  path : string;
  content : string
}.

(** ** The program *)

Section Program.

Variable env : Env.

(** [requests.get(url, params=params)]. *)
Definition requests_get (url : string) (params : list (string * string))
    : M Response :=
  λ w, (http_reply env w url params, set_http_log (http_log w ++ [url]) w).

(** [response.raise_for_status()]. *)
Definition raise_for_status (response : Response) : M unit :=
  if (400 <=? status_code response) && (status_code response <? 600)
  then raise (LibraryError "HTTPError" (str_of_Z (status_code response)))
  else ret tt.

(** [response.json()]. *)
Definition response_json (response : Response) : M Listing :=
  λ w, (resp_json response, w).

(** [client.chat.completions.create(...)] followed by
    [response.choices[0].message.content]. *)
Definition chat_completion (req : ChatRequest) : M string :=
  λ w, (chat_reply env w req, set_llm_log (llm_log w ++ [req]) w).

(** [chroma_client.get_or_create_collection(name=..., embedding_function=
    default_ef)]: the collection is created empty when it is absent; the
    handle returned is modelled by the name. *)
Definition get_or_create_collection (name : string) : M string :=
  λ w, let w1 := set_store_log (store_log w ++ [CallGetOrCreate name]) w in
       match collection_error env w name with
       | Some e => (Raise e, w1)
       | None =>
           match db w1 !! name with
           | Some _ => (Ok name, w1)
           | None => (Ok name, set_db (<[name := []]> (db w1)) w1)
           end
       end.

(** [collection.add(documents=..., metadatas=..., ids=...)]. *)
Definition collection_add (collection : string) (documents : list string)
    (metadatas : list (gmap string string)) (ids : list string) : M unit :=
  λ w, let w1 := set_store_log
                   (store_log w ++ [CallAdd collection documents metadatas ids])
                   w in
       let batch :=
         zip_with (λ i dm, {| sd_id := i; sd_document := dm.1;
                              sd_metadata := dm.2 |})
                  ids (zip documents metadatas) in
       match add_reply env (default [] (db w1 !! collection)) batch with
       | Raise e => (Raise e, w1)
       | Ok docs => (Ok tt, set_db (<[collection := docs]> (db w1)) w1)
       end.

(** [collection.query(query_texts=..., n_results=...)['documents']].  The
    client checks the number of results before it searches: a number
    that is not positive is a [TypeError]. *)
Definition collection_query (collection : string) (query_texts : list string)
    (n_results : Z) : M (list (list string)) :=
  λ w, (if n_results <=? 0
        then Raise (LibraryError "TypeError"
                      ("Number of requested results " +:+ str_of_Z n_results
                       +:+ ", cannot be negative, or zero."))
        else query_reply env (default [] (db w !! collection)) query_texts
               n_results,
        set_store_log
          (store_log w ++ [CallQuery collection query_texts n_results]) w).

(** *** [get_file_content] (lines 68-74) *)

Definition get_file_content (download_url : string) : M string :=
  response <- requests_get download_url [] ;;
  raise_for_status response ;;
  ret (resp_text response).

(** *** [get_contents] (lines 30-65) *)

Definition excluded_extensions : list string :=
  [".png"; ".jpg"; ".jpeg"; ".gif"; ".bmp"; ".svg"; ".mp4"; ".mp3"; ".wav";
   ".avi"; ".mov"].

(** [any(p.endswith(ext) for ext in excluded_extensions)]. *)
Definition is_excluded (p : string) : bool :=
  existsb (endswith p) excluded_extensions.

(** The partial results of the recursion: [None] when the recursion depth
    [fuel] does not suffice. *)
Definition MP (A : Type) : Type := World → option (result A * World).

(** The loop of lines 47-64 over the entries of one listing; [rec] is the
    recursive call [get_contents(owner, repo, _)] and [contents] the list
    built so far. *)
Fixpoint get_contents_loop (rec : string → MP (list TreeNode))
    (items : list Item) (contents : list TreeNode) : MP (list TreeNode) :=
  λ w,
  match items with
  | [] => Some (Ok contents, w)
  | item :: rest =>
      if String.eqb (item_type item) "file" && is_excluded (item_path item)
      then get_contents_loop rec rest contents w
      else if String.eqb (item_type item) "file" then
        match get_file_content (item_download_url item) w with
        | (Raise e, w1) => Some (Raise e, w1)
        | (Ok file_content, w1) =>
            get_contents_loop rec rest
              (contents ++ [FileNode (item_path item) file_content]) w1
        end
      else if String.eqb (item_type item) "dir" then
        match rec (item_path item) w with
        | None => None
        | Some (Raise e, w1) => Some (Raise e, w1)
        | Some (Ok dir_contents, w1) =>
            get_contents_loop rec rest
              (contents ++ [DirNode (item_path item) dir_contents]) w1
        end
      else get_contents_loop rec rest contents w
  end.

Fixpoint get_contents (fuel : nat) (owner repo : string) (path : string)
    : MP (list TreeNode) :=
  λ w,
  match fuel with
  | O => None
  | S fuel' =>
      let api_url := "https://api.github.com/repos/" +:+ owner +:+ "/"
                     +:+ repo +:+ "/contents/" +:+ path in
      let params := [("ref", "main")] in
      match (response <- requests_get api_url params ;;
             raise_for_status response ;;
             items <- response_json response ;;
             ret items) w with
      | (Raise e, w1) => Some (Raise e, w1)
      | (Ok items, w1) =>
          let items := match items with
                       | JList l => l
                       | JItem i => [i]
                       end in
          get_contents_loop (get_contents fuel' owner repo) items [] w1
      end
  end.

(** *** [flatten_contents] (lines 77-94) *)

(** The body of the loop of the inner function [_flatten], with the list
    [flat_files] that it appends to passed along; on a directory it runs
    the loop over the children. *)
Fixpoint _flatten_item (item : TreeNode) (flat_files : list FlatDocument)
    : list FlatDocument :=
  match item with
  | FileNode p c => flat_files ++ [{| path := p; content := c |}]
  | DirNode _ sub =>
      (fix loop (items : list TreeNode) (acc : list FlatDocument) :=
         match items with
         | [] => acc
         | item :: rest => loop rest (_flatten_item item acc)
         end) sub flat_files
  end.

(** The inner function [_flatten]: [for item in items: ...]. *)
Fixpoint _flatten (items : list TreeNode) (flat_files : list FlatDocument)
    : list FlatDocument :=
  match items with
  | [] => flat_files
  | item :: rest => _flatten rest (_flatten_item item flat_files)
  end.

Definition flatten_contents (contents : list TreeNode) : list FlatDocument :=
  _flatten contents [].

(** *** [ingest_into_vector_db] (lines 97-108) *)

Definition ingest_into_vector_db (files : list FlatDocument)
    (collection_name : string) : M unit :=
  collection <- get_or_create_collection collection_name ;;
  let texts := map content files in
  let metadatas := map (λ file, ({[ "path" := path file ]} : gmap string string))
                       files in
  let ids := map path files in
  collection_add collection texts metadatas ids ;;
  print ("Ingested " +:+ str_of_Z (Z.of_nat (length files))
         +:+ " documents into the vector database.").

(** *** [query_vector_db] (lines 111-126) *)

Definition query_vector_db (query collection_name : string) (top_k : Z)
    : M (list string) :=
  collection <- get_or_create_collection collection_name ;;
  results <- collection_query collection [query] top_k ;;
  let retrieved_docs :=
    fold_left (λ docs doc_list,
                 fold_left (λ docs doc, docs ++ [doc]) doc_list docs)
              results [] in
  ret retrieved_docs.

(** *** [truncate_to_token_limit] (lines 129-138) *)

(** The slice [l[:n]] of Python: a negative [n] counts from the end. *)
Definition slice_to {A} (l : list A) (n : Z) : list A :=
  if 0 <=? n then take (Z.to_nat n) l
  else take (length l - Z.to_nat (- n)) l.

Definition truncate_to_token_limit (text : string) (max_tokens : Z)
    (encoding : string) : result string :=
  match encoding_for_model env encoding with
  | Raise e => Raise e
  | Ok tokenizer =>
      match encode tokenizer text with
      | Raise e => Raise e
      | Ok tokens =>
          if bool_decide (Z.of_nat (length tokens) ≤ max_tokens) then Ok text
          else
            let truncated_tokens := slice_to tokens max_tokens in
            Ok (decode tokenizer truncated_tokens)
      end
  end.

(** *** [summarize_text] (lines 141-155) *)

Definition summary_request (text : string) (max_tokens : Z) : ChatRequest :=
  let prompt := "Summarize the following text to " +:+ str_of_Z max_tokens
                +:+ " tokens:" +:+ nl +:+ nl +:+ text +:+ nl +:+ nl
                +:+ "Summary:" in
  {| chat_model := "gpt-4";
     chat_messages :=
       [("system", "You are a helpful assistant that summarizes text.");
        ("user", prompt)];
     chat_max_tokens := max_tokens;
     chat_temperature := "0.5" |}.

Definition summarize_text (text : string) (max_tokens : Z) : M string :=
  response <- chat_completion (summary_request text max_tokens) ;;
  ret (strip_ws response).

(** *** [generate_gpt4_response] (lines 158-196) *)

Definition apology : string :=
  "I'm sorry, I couldn't process your request at the moment.".

Definition answer_prompt (context query : string) : string :=
  "You are an assistant that provides detailed answers based on the following context:"
  +:+ nl +:+ nl +:+ nl +:+ "Context:" +:+ nl +:+ context +:+ nl +:+ nl
  +:+ "Question:" +:+ nl +:+ query +:+ nl +:+ nl +:+ "Answer:".

Definition answer_request (prompt : string) : ChatRequest :=
  {| chat_model := "gpt-4";
     chat_messages := [("system", "You are a helpful assistant.");
                       ("user", prompt)];
     chat_max_tokens := 1000;
     chat_temperature := "0.2" |}.

Definition generate_gpt4_response (query : string) (context_docs : list string)
    (max_context_tokens : Z) : M string :=
  summarized_contexts <- map_M (λ doc, summarize_text doc 200) context_docs ;;
  let combined_context := join (nl +:+ nl) summarized_contexts in
  context <- of_result (truncate_to_token_limit combined_context
                          max_context_tokens "gpt-4") ;;
  let prompt := answer_prompt context query in
  try_except
    (response <- chat_completion (answer_request prompt) ;;
     let answer := strip_ws response in
     ret answer)
    (λ e,
       print ("Error generating GPT-4 response: " +:+ exc_str e) ;;
       ret apology).

(** *** [query_main] (lines 199-222) *)

(** Characters for which [str.isdigit] holds, below code point 256: the
    decimal digits and the superscripts two, three and one. *)
Definition is_digit (c : ascii) : bool :=
  is_ascii_digit c
  || (ascii_code c =? 178)%nat || (ascii_code c =? 179)%nat
  || (ascii_code c =? 185)%nat.

(** [s.isdigit()]. *)
Definition isdigit (s : string) : bool :=
  str_nonempty s && str_forallb is_digit s.

(** The white space that [int] skips at both ends of a string, below
    code point 256 (the separators 28 to 31 are not skipped). *)
Definition is_int_space (c : ascii) : bool :=
  let n := ascii_code c in
  ((9 <=? n) && (n <=? 13) || (n =? 32) || (n =? 133) || (n =? 160))%nat.

(** [repr(s)] for a string, below code point 256. *)
Definition repr_char (quote c : ascii) : string :=
  let n := ascii_code c in
  if Ascii.eqb c quote || Ascii.eqb c "\" then String "\" (String c "")
  else if (n =? 9)%nat then "\t"
  else if (n =? 10)%nat then "\n"
  else if (n =? 13)%nat then "\r"
  else if ((n <? 32) || (n =? 127) || (128 <=? n) && (n <=? 160)
           || (n =? 173))%nat
  then "\x" +:+ String (hex_digit (n / 16)) (String (hex_digit (n mod 16)) "")
  else String c "".

Fixpoint repr_chars (quote : ascii) (s : string) : string :=
  match s with
  | "" => ""
  | String c s' => repr_char quote c +:+ repr_chars quote s'
  end.

Definition py_repr (s : string) : string :=
  let quote := if has_char "'" s && negb (has_char "034" s)
               then "034"%char else "'"%char in
  String quote (repr_chars quote s) +:+ String quote "".

(** The default of [sys.get_int_max_str_digits()]. *)
Definition int_max_str_digits : nat := 4300.

(** The run of digits at the head of the text given to [int]: decimal
    digits with single underscores between them.  The result is the
    number of digits, their value and the text after the run, or [None]
    for two underscores in a row or an underscore at the end of the
    run. *)
Fixpoint int_scan (digits : nat) (acc : Z) (after_underscore : bool)
    (s : string) : option (nat * Z * string) :=
  match s with
  | "" => if after_underscore then None else Some (digits, acc, "")
  | String c s' =>
      if is_ascii_digit c
      then int_scan (S digits) (10 * acc + Z.of_nat (ascii_code c - 48))
                    false s'
      else if Ascii.eqb c "_"
      then if after_underscore then None else int_scan digits acc true s'
      else if after_underscore then None else Some (digits, acc, s)
  end.

Definition invalid_literal (s : string) : Exc :=
  ValueError ("invalid literal for int() with base 10: " +:+ py_repr s).

Definition too_many_digits (digits : nat) : Exc :=
  ValueError ("Exceeds the limit ("
              +:+ str_of_Z (Z.of_nat int_max_str_digits)
              +:+ " digits) for integer string conversion: value has "
              +:+ str_of_Z (Z.of_nat digits)
              +:+ " digits; use sys.set_int_max_str_digits() to increase the limit").

(** [int(s)] in base ten, for characters below code point 256: white
    space, a sign, the run of digits, white space.  The number of digits
    is checked against the limit of the interpreter before the end of the
    text is looked at. *)
Definition py_int (s : string) : result Z :=
  let t := lstrip is_int_space s in
  let '(neg, body) :=
    match t with
    | String "-" t' => (true, t')
    | String "+" t' => (false, t')
    | _ => (false, t)
    end in
  if startswith body "_" then Raise (invalid_literal s)
  else
    match int_scan 0 0 false body with
    | None => Raise (invalid_literal s)
    | Some (digits, n, rest) =>
        if (int_max_str_digits <? digits)%nat
        then Raise (too_many_digits digits)
        else if (digits =? 0)%nat then Raise (invalid_literal s)
        else if str_forallb is_int_space rest
        then Ok (if neg : bool then - n else n)
        else Raise (invalid_literal s)
    end.

(** Lines 205-209: the number of documents to retrieve, from the line
    typed by the user. *)
Definition coerce_top_k (top_k : string) : M Z :=
  if negb (isdigit top_k) then ret 5
  else λ w, (py_int top_k, w).

Definition query_main : M unit :=
  collection_name <- input "Enter the collection name to query: " ;;
  let collection_name := strip_ws collection_name in
  query <- input "Enter your query: " ;;
  let query := strip_ws query in
  top_k <- input "Enter the number of top documents to retrieve (default 5): " ;;
  let top_k := strip_ws top_k in
  top_k <- coerce_top_k top_k ;;
  print "Retrieving relevant documents from the vector database..." ;;
  retrieved_docs <- query_vector_db query collection_name top_k ;;
  print ("Retrieved " +:+ str_of_Z (Z.of_nat (length retrieved_docs))
         +:+ " documents.") ;;
  let context_docs := retrieved_docs in
  print "Generating response using GPT-4..." ;;
  answer <- generate_gpt4_response query context_docs 6000 ;;
  print (nl +:+ "=== GPT-4 Response ===") ;;
  print answer ;;
  print ("======================" +:+ nl).

End Program.

(** ** [json.dump(repo_contents, f, indent=2)]

    The text written by the encoder of the standard library for the tree
    of [get_contents], with the default [ensure_ascii]: every character
    outside the range from the space to the tilde, the quote and the
    backslash are escaped. *)

Definition dquote : string := String "034" "".

(** The escape of one character, as [ESCAPE_DCT] and the [\uXXXX] form. *)
Definition json_escape_char (c : ascii) : string :=
  let n := ascii_code c in
  if (n =? 34)%nat then "\" +:+ dquote
  else if (n =? 92)%nat then "\\"
  else if (n =? 8)%nat then "\b"
  else if (n =? 12)%nat then "\f"
  else if (n =? 10)%nat then "\n"
  else if (n =? 13)%nat then "\r"
  else if (n =? 9)%nat then "\t"
  else if (32 <=? n)%nat && (n <=? 126)%nat then String c ""
  else "\u00" +:+ String (hex_digit (n / 16)) (String (hex_digit (n mod 16)) "").

Fixpoint json_escape (s : string) : string :=
  match s with
  | "" => ""
  | String c s' => json_escape_char c +:+ json_escape s'
  end.

Definition json_string (s : string) : string :=
  dquote +:+ json_escape s +:+ dquote.

(** A new line followed by the indentation of [level] (two spaces for
    each level). *)
Fixpoint newline_indent (level : nat) : string :=
  match level with
  | O => nl
  | S l => newline_indent l +:+ "  "
  end.

(** A list whose elements, already encoded, are [elems]; [level] is the
    nesting level of the list. *)
Definition json_array (level : nat) (elems : list string) : string :=
  match elems with
  | [] => "[]"
  | _ => "[" +:+ newline_indent (S level)
         +:+ join ("," +:+ newline_indent (S level)) elems
         +:+ newline_indent level +:+ "]"
  end.

(** A dictionary with the entries [entries] (key, encoded value), which
    are never empty here. *)
Definition json_object (level : nat) (entries : list (string * string))
    : string :=
  "{" +:+ newline_indent (S level)
  +:+ join ("," +:+ newline_indent (S level))
        (map (λ kv, json_string kv.1 +:+ ": " +:+ kv.2) entries)
  +:+ newline_indent level +:+ "}".

Fixpoint json_node (level : nat) (n : TreeNode) : string :=
  match n with
  | FileNode p c =>
      json_object level
        [("type", json_string "file"); ("path", json_string p);
         ("content", json_string c)]
  | DirNode p sub =>
      json_object level
        [("type", json_string "dir"); ("path", json_string p);
         ("contents", json_array (S level) (map (json_node (S (S level))) sub))]
  end.

Definition json_dump (repo_contents : list TreeNode) : string :=
  json_array 0 (map (json_node 1) repo_contents).

(** ** [main] (lines 225-266)

    The menu loop also writes a file: its state is the [World] and the
    files written so far.  A computation of the loop can raise, and can
    run out of the recursion depth given to [get_contents] or of the
    number of iterations given to the loop ([None]). *)

Record Machine : Type := {
  m_world : World;
  m_files : gmap string string
}.

Definition MS (A : Type) : Type := Machine → option (result A * Machine).

Definition retS {A} (a : A) : MS A := λ s, Some (Ok a, s).
Definition bindS {A B} (m : MS A) (k : A → MS B) : MS B :=
  λ s, match m s with
       | None => None
       | Some (Ok a, s') => k a s'
       | Some (Raise e, s') => Some (Raise e, s')
       end.
Definition try_exceptS {A} (m : MS A) (h : Exc → MS A) : MS A :=
  λ s, match m s with
       | None => None
       | Some (Ok a, s') => Some (Ok a, s')
       | Some (Raise e, s') => h e s'
       end.

(** The computations of the program, run on the [World] of the state. *)
Definition liftM {A} (m : M A) : MS A :=
  λ s, let '(r, w) := m (m_world s) in
       Some (r, {| m_world := w; m_files := m_files s |}).
Definition liftP {A} (m : MP A) : MS A :=
  λ s, match m (m_world s) with
       | None => None
       | Some (r, w) => Some (r, {| m_world := w; m_files := m_files s |})
       end.
Definition lift_result {A} (r : result A) : MS A := λ s, Some (r, s).

Declare Scope main_scope.
Delimit Scope main_scope with main.
Notation "x <- m ;; k" := (bindS m (λ x, k))
  (at level 20, m at level 99, k at level 200, only parsing) : main_scope.
Notation "m ;; k" := (bindS m (λ _, k))
  (at level 100, k at level 200, only parsing, right associativity)
  : main_scope.

(** [str(e)] for an exception caught by the loop; the [EOFError] is the
    one of [input]. *)
Definition exc_message (e : Exc) : string :=
  match e with
  | EOFError => "EOF when reading a line"
  | _ => exc_str e
  end.

Section MainProgram.

Variable env : Env.
Variable urlparse : string → result ParseResult.
(** Whether [open(name, 'w', encoding='utf-8')] fails. *)
Variable open_error : Machine → string → option Exc.
(** The recursion depth given to [get_contents]. *)
Variable depth : nat.

Local Open Scope main_scope.

(** [with open(name, 'w', encoding='utf-8') as f: json.dump(tree, f,
    indent=2)]. *)
Definition write_json (output_filename : string)
    (repo_contents : list TreeNode) : MS unit :=
  λ s, match open_error s output_filename with
       | Some e => Some (Raise e, s)
       | None =>
           Some (Ok tt,
                 {| m_world := m_world s;
                    m_files := <[output_filename := json_dump repo_contents]>
                                 (m_files s) |})
       end.

(** The body of the [try] of the first choice (lines 239-250). *)
Definition ingest_workflow (repo_url : string) : MS unit :=
  owner_repo <- lift_result (get_repo_info urlparse repo_url) ;;
  let owner := owner_repo.1 in
  let repo := owner_repo.2 in
  liftM (print ("Processing repository '" +:+ owner +:+ "/" +:+ repo
                +:+ "'...")) ;;
  repo_contents <- liftP (get_contents env depth owner repo "") ;;
  let output_filename := repo +:+ "_structured_content.json" in
  write_json output_filename repo_contents ;;
  liftM (print ("Repository contents have been saved to '"
                +:+ output_filename +:+ "'.")) ;;
  let flat_files := flatten_contents repo_contents in
  liftM (ingest_into_vector_db env flat_files
           (owner +:+ "_" +:+ repo +:+ "_collection")).

(** One pass through the body of [while True]; the result tells whether
    the loop goes on ([true]) or is left by [break] ([false]). *)
Definition main_iteration : MS bool :=
  liftM (print "Choose an option:") ;;
  liftM (print "1. Ingest GitHub repository into vector database") ;;
  liftM (print "2. Query the vector database") ;;
  liftM (print "3. Exit") ;;
  choice <- liftM (input "Enter your choice (1/2/3): ") ;;
  let choice := strip_ws choice in
  if String.eqb choice "1" then
    repo_url <- liftM (input "Enter the GitHub repository URL: ") ;;
    let repo_url := strip_ws repo_url in
    try_exceptS (ingest_workflow repo_url)
      (λ e, liftM (print ("An error occurred: " +:+ exc_message e))) ;;
    retS true
  else if String.eqb choice "2" then
    try_exceptS (liftM (query_main env))
      (λ e, liftM (print ("An error occurred during querying: "
                          +:+ exc_message e))) ;;
    retS true
  else if String.eqb choice "3" then
    liftM (print "Exiting the program.") ;;
    retS false
  else
    liftM (print "Invalid choice. Please enter 1, 2, or 3.") ;;
    retS true.

(** [main]: at most [fuel] iterations of the loop. *)
Fixpoint main (fuel : nat) : MS unit :=
  match fuel with
  | O => λ _, None
  | S fuel' =>
      continue <- main_iteration ;;
      if continue : bool then main fuel' else retS tt
  end.

End MainProgram.

(** ** Definitions that follow the words of the specification *)

(** The non-empty segments of a URL path. *)
Definition path_segments (p : string) : list string :=
  filter (λ seg : string, seg ≠ "") (split "/" p).

(** The nodes of a tree in depth-first order, a directory before its
    children, the children in the order of the list. *)
Fixpoint preorder_node (n : TreeNode) : list TreeNode :=
  n :: match n with
       | FileNode _ _ => []
       | DirNode _ sub => concat (map preorder_node sub)
       end.

Definition preorder (t : list TreeNode) : list TreeNode :=
  concat (map preorder_node t).

(** The record of a file node; a directory has none. *)
Definition file_record (n : TreeNode) : option FlatDocument :=
  match n with
  | FileNode p c => Some {| path := p; content := c |}
  | DirNode _ _ => None
  end.

(** The numbers of file nodes and of directory nodes of a tree. *)
Fixpoint count_files_node (n : TreeNode) : nat :=
  match n with
  | FileNode _ _ => 1
  | DirNode _ sub => sum_list (map count_files_node sub)
  end.
Definition count_files (t : list TreeNode) : nat :=
  sum_list (map count_files_node t).

Fixpoint count_dirs_node (n : TreeNode) : nat :=
  match n with
  | FileNode _ _ => 0
  | DirNode _ sub => S (sum_list (map count_dirs_node sub))
  end.
Definition count_dirs (t : list TreeNode) : nat :=
  sum_list (map count_dirs_node t).

(** No file of the tree has a path that ends with an excluded extension. *)
Definition no_excluded_file (t : list TreeNode) : Prop :=
  ∀ p c, FileNode p c ∈ preorder t → is_excluded p = false.

(** Every file node of a tree, at any depth, satisfies [P] (on its path
    and its content). *)
Definition all_files (P : string → string → Prop) (t : list TreeNode) : Prop :=
  ∀ p c, FileNode p c ∈ preorder t → P p c.

(** The kind and the path of a node. *)
Definition top_entry (n : TreeNode) : string * string :=
  match n with
  | FileNode p _ => ("file", p)
  | DirNode p _ => ("dir", p)
  end.

(** The entries of a listing that give a node: the files that are not
    excluded and the directories. *)
Definition is_kept (item : Item) : bool :=
  if String.eqb (item_type item) "file"
  then negb (is_excluded (item_path item))
  else String.eqb (item_type item) "dir".

(** The world [w'] differs from [w] by HTTP requests only. *)
Definition http_only (w w' : World) : Prop :=
  stdin w' = stdin w ∧ stdout w' = stdout w ∧ llm_log w' = llm_log w
  ∧ store_log w' = store_log w ∧ db w' = db w
  ∧ ∃ requests, http_log w' = http_log w ++ requests.

(** The text [c] is the body of a reply of the host whose status is not
    an error status. *)
Definition body_of_ok_reply (env : Env) (c : string) : Prop :=
  ∃ w url response,
    http_reply env w url [] = Ok response
    ∧ ¬ (400 ≤ status_code response < 600)
    ∧ c = resp_text response.

(** The document that the store is given for a file. *)
Definition stored_doc_of (file : FlatDocument) : StoredDoc :=
  {| sd_id := path file; sd_document := content file;
     sd_metadata := {[ "path" := path file ]} |}.

(** The characters of a JSON text written with [ensure_ascii]: the
    printable ASCII characters and the new line. *)
Definition is_json_char (c : ascii) : bool :=
  ((32 <=? ascii_code c) && (ascii_code c <=? 126) || (ascii_code c =? 10))%nat.

(** The computation [m] does not add lines to the input. *)
Definition stdin_le {A} (m : M A) : Prop :=
  ∀ w, (length (stdin (m w).2) ≤ length (stdin w))%nat.

Definition stdin_of (s : Machine) : list string := stdin (m_world s).

(** The same for a computation of the loop, and: the computation always
    has an outcome. *)
Definition ms_stdin_le {A} (m : MS A) : Prop :=
  ∀ s r s', m s = Some (r, s') →
            (length (stdin_of s') ≤ length (stdin_of s))%nat.

Definition ms_defined {A} (m : MS A) : Prop := ∀ s, is_Some (m s).

(** The state of the loop once the menu is printed and the choice read:
    [rest] is the input left. *)
Definition after_menu (s : Machine) (rest : list string) : Machine :=
  {| m_world :=
       set_stdin rest
         (set_stdout
            (stdout (m_world s)
             ++ ["Choose an option:";
                 "1. Ingest GitHub repository into vector database";
                 "2. Query the vector database";
                 "3. Exit";
                 "Enter your choice (1/2/3): "])
            (m_world s));
     m_files := m_files s |}.

(** The state of the loop once the URL of the repository is asked for
    and read: [rest] is the input left. *)
Definition after_url (s : Machine) (rest : list string) : Machine :=
  {| m_world :=
       set_stdin rest
         (set_stdout
            (stdout (m_world s) ++ ["Enter the GitHub repository URL: "])
            (m_world s));
     m_files := m_files s |}.

(** The state left by a handler of the loop: the message of the exception
    is printed after the words of the handler. *)
Definition reported (words : string) (e : Exc) (s : Machine) : Machine :=
  {| m_world :=
       set_stdout (stdout (m_world s) ++ [words +:+ exc_message e])
                  (m_world s);
     m_files := m_files s |}.

(** A line that is none of the three choices. *)
Definition is_invalid_choice (line : string) : bool :=
  negb (String.eqb (strip_ws line) "1") && negb (String.eqb (strip_ws line) "2")
  && negb (String.eqb (strip_ws line) "3").

(** The value of a string of decimal digits. *)
Definition decimal_value (s : string) : Z :=
  fold_left (λ acc c, 10 * acc + Z.of_nat (ascii_code c - 48))
            (list_ascii_of_string s) 0.


(** The numbers of results requested from the vector store, in order. *)
Definition requested_k (log : list StoreCall) : list Z :=
  omap (λ c, match c with CallQuery _ _ k => Some k | _ => None end) log.

(** Computations that make no call to the vector store. *)
Definition keeps_store_log {A} (m : M A) : Prop :=
  ∀ w, store_log (m w).2 = store_log w.

Create HintDb keeps.

(** ** Concrete services, to run the program *)

(** A stand-in for the tokenizer, to run the program: it is not the
    encoding of the library.  Each character is one token, its code. *)
Definition ascii_of_Z (n : Z) : ascii := ascii_of_nat (Z.to_nat n).

Definition char_encode (s : string) : list Z :=
  map (λ c, Z.of_nat (ascii_code c)) (list_ascii_of_string s).

Definition char_decode (ts : list Z) : string :=
  string_of_list_ascii (map ascii_of_Z ts).

Definition char_tokenizer : Tokenizer :=
  {| encode := λ text, Ok (char_encode text); decode := char_decode |}.

(** The failure of a tokenizer whose vocabulary cannot be loaded. *)
Definition vocabulary_down : Exc :=
  LibraryError "ConnectionError" "Connection error.".

(** A repository with the files [a.py] and [b.png] and the directory [c]
    holding [c/d.py]. *)
Definition demo_root : list Item :=
  [ {| item_type := "file"; item_path := "a.py";
       item_download_url := "https://raw.example/a.py" |};
    {| item_type := "file"; item_path := "b.png";
       item_download_url := "https://raw.example/b.png" |};
    {| item_type := "dir"; item_path := "c"; item_download_url := "" |} ].

Definition demo_c : list Item :=
  [ {| item_type := "file"; item_path := "c/d.py";
       item_download_url := "https://raw.example/c/d.py" |} ].

Definition listing_response (items : list Item) : Response :=
  {| status_code := 200; resp_json := Ok (JList items); resp_text := "" |}.

Definition text_response (text : string) : Response :=
  {| status_code := 200;
     resp_json := Raise (LibraryError "JSONDecodeError" "Expecting value");
     resp_text := text |}.

Definition demo_http (w : World) (url : string)
    (params : list (string * string)) : result Response :=
  if String.eqb url "https://api.github.com/repos/o/r/contents/"
  then Ok (listing_response demo_root)
  else if String.eqb url "https://api.github.com/repos/o/r/contents/c"
  then Ok (listing_response demo_c)
  else if String.eqb url "https://raw.example/a.py"
  then Ok (text_response "x=1")
  else if String.eqb url "https://raw.example/c/d.py"
  then Ok (text_response "y=2")
  else Ok {| status_code := 404;
             resp_json := Raise (LibraryError "JSONDecodeError" "Expecting value");
             resp_text := "Not Found" |}.

Definition api_down : Exc := LibraryError "APIConnectionError" "Connection error.".

(** LLM endpoints: one that answers, one that fails on the final answer
    only, one that fails on summaries, one that fails on its second
    call. *)
Definition chat_up (w : World) (req : ChatRequest) : result string :=
  if chat_max_tokens req =? 200 then Ok " a summary " else Ok " An answer. ".

Definition chat_answer_down (w : World) (req : ChatRequest) : result string :=
  if chat_max_tokens req =? 200 then Ok " a summary " else Raise api_down.

Definition chat_summary_down (w : World) (req : ChatRequest) : result string :=
  if chat_max_tokens req =? 200 then Raise api_down else Ok " An answer. ".

Definition chat_second_down (w : World) (req : ChatRequest) : result string :=
  if (length (llm_log w) =? 1)%nat then Raise api_down else Ok " a summary ".

(** A stand-in for the store, to run the program: it appends what it is
    given and answers a query with the first documents of the
    collection. *)
Definition demo_add (existing batch : list StoredDoc) : result (list StoredDoc) :=
  Ok (existing ++ batch).

Definition demo_query (docs : list StoredDoc) (query_texts : list string)
    (n_results : Z) : result (list (list string)) :=
  Ok (map (λ _, take (Z.to_nat n_results) (map sd_document docs))
          query_texts).

Definition demo_env (chat : World → ChatRequest → result string) : Env :=
  {| http_reply := demo_http;
     chat_reply := chat;
     encoding_for_model := λ _, Ok char_tokenizer;
     collection_error := λ _ _, None;
     add_reply := demo_add;
     query_reply := demo_query |}.

Definition world0 (lines : list string) : World :=
  {| stdin := lines; stdout := []; http_log := []; llm_log := [];
     store_log := []; db := ∅ |}.

(** The services of [demo_env], with a tokenizer that cannot be
    obtained. *)
Definition no_tokenizer_env (chat : World → ChatRequest → result string) : Env :=
  {| http_reply := demo_http;
     chat_reply := chat;
     encoding_for_model := λ _, Raise vocabulary_down;
     collection_error := λ _ _, None;
     add_reply := demo_add;
     query_reply := demo_query |}.

Definition machine0 (lines : list string) : Machine :=
  {| m_world := world0 lines; m_files := ∅ |}.

(** A file system on which every file can be opened. *)
Definition open_ok (s : Machine) (name : string) : option Exc := None.

(** A host whose every listing is empty. *)
Definition empty_host_env : Env :=
  {| http_reply := λ _ _ _, Ok (listing_response []);
     chat_reply := chat_up;
     encoding_for_model := λ _, Ok char_tokenizer;
     collection_error := λ _ _, None;
     add_reply := demo_add;
     query_reply := demo_query |}.

Definition octocat_parsed : ParseResult :=
  {| pr_scheme := "https"; pr_netloc := "github.com"; pr_path := "/octocat/";
     pr_params := ""; pr_query := ""; pr_fragment := "" |}.

(** * Properties *)

(** ** Strings *)

Lemma split_cons sep s : ∃ h t, split sep s = h :: t.
Proof.
  induction s as [|c s IH]; simpl; [by eauto|].
  destruct (Ascii.eqb c sep); [by eauto|].
  destruct IH as (h & t & ->). by eauto.
Qed.

Lemma split_sep sep c s :
  Ascii.eqb c sep = true → split sep (String c s) = "" :: split sep s.
Proof. intros Hc. simpl. by rewrite Hc. Qed.

Lemma split_other sep c s h t :
  Ascii.eqb c sep = false → split sep s = h :: t →
  split sep (String c s) = String c h :: t.
Proof. intros Hc Hs. simpl. by rewrite Hc, Hs. Qed.

Lemma lstrip_unfold p c s :
  lstrip p (String c s) = if p c then lstrip p s else String c s.
Proof. done. Qed.

Lemma rstrip_drop p c s :
  p c = true → rstrip p s = "" → rstrip p (String c s) = "".
Proof. intros Hc Hs. simpl. by rewrite Hc, Hs. Qed.

Lemma rstrip_keep p c s :
  p c = false ∨ rstrip p s ≠ "" →
  rstrip p (String c s) = String c (rstrip p s).
Proof.
  intros H. simpl. destruct (p c); [|done].
  destruct H as [?|H]; [done|]. by destruct (rstrip p s).
Qed.

Lemma filter_nonempty_nil (l : list string) :
  filter (λ seg : string, seg ≠ "") ("" :: l)
  = filter (λ seg : string, seg ≠ "") l.
Proof. by rewrite filter_cons_False by naive_solver. Qed.

Lemma segments_lstrip s :
  path_segments (lstrip is_slash s) = path_segments s.
Proof.
  unfold path_segments.
  induction s as [|c s IH]; [done|].
  rewrite lstrip_unfold. unfold is_slash at 1.
  destruct (Ascii.eqb c "/") eqn:Hc; [|done].
  by rewrite IH, (split_sep _ _ _ Hc), filter_nonempty_nil.
Qed.

(** Stripping on the right keeps the first segment and removes only empty
    segments. *)
Lemma split_rstrip s :
  ∃ h t t', split "/" s = h :: t ∧ split "/" (rstrip is_slash s) = h :: t'
            ∧ filter (λ seg : string, seg ≠ "") t
              = filter (λ seg : string, seg ≠ "") t'.
Proof.
  induction s as [|c s (h & t & t' & Hs & Hr & Hf)]; [by exists "", [], []|].
  destruct (is_slash c) eqn:Hc.
  - rewrite (split_sep _ _ _ Hc).
    destruct (decide (rstrip is_slash s = "")) as [Hrs|Hrs].
    + rewrite (rstrip_drop _ _ _ Hc Hrs). rewrite Hrs in Hr.
      injection Hr as <- <-.
      exists "", (split "/" s), []. split_and!; [done..|].
      by rewrite Hs, filter_nonempty_nil, Hf.
    + rewrite rstrip_keep by auto. rewrite (split_sep _ _ _ Hc).
      exists "", (split "/" s), (split "/" (rstrip is_slash s)).
      split_and!; [done..|].
      rewrite Hs, Hr.
      destruct (decide (h = "")) as [->|Hne].
      * by rewrite !filter_nonempty_nil.
      * rewrite !filter_cons_True by done. by rewrite Hf.
  - rewrite rstrip_keep by auto.
    exists (String c h), t, t'.
    by rewrite (split_other _ _ _ _ _ Hc Hs), (split_other _ _ _ _ _ Hc Hr).
Qed.

Lemma segments_rstrip s :
  path_segments (rstrip is_slash s) = path_segments s.
Proof.
  unfold path_segments.
  destruct (split_rstrip s) as (h & t & t' & -> & -> & Hf).
  destruct (decide (h = "")) as [->|Hne].
  - by rewrite !filter_nonempty_nil.
  - rewrite !filter_cons_True by done. by rewrite Hf.
Qed.

Lemma segments_strip s :
  path_segments (strip is_slash s) = path_segments s.
Proof. unfold strip. by rewrite segments_rstrip, segments_lstrip. Qed.

(** A right-stripped string is empty or its last segment is not empty. *)
Lemma rstrip_last s :
  rstrip is_slash s = "" ∨ last (split "/" (rstrip is_slash s)) ≠ Some "".
Proof.
  induction s as [|c s IH]; [by left|].
  destruct (is_slash c) eqn:Hc.
  - destruct IH as [IH|IH]; [left; by apply rstrip_drop|right].
    assert (Hne : rstrip is_slash s ≠ "").
    { intros E. by rewrite E in IH. }
    rewrite rstrip_keep by auto. rewrite (split_sep _ _ _ Hc).
    destruct (split_cons "/" (rstrip is_slash s)) as (h & t & Ht).
    rewrite Ht in IH |- *. by rewrite last_cons_cons.
  - right. rewrite rstrip_keep by auto.
    destruct (split_cons "/" (rstrip is_slash s)) as (h & t & Ht).
    rewrite (split_other _ _ _ _ _ Hc Ht).
    destruct t as [|h' t]; [done|].
    rewrite last_cons_cons.
    destruct IH as [IH|IH]; [by rewrite IH in Ht|].
    by rewrite Ht, last_cons_cons in IH.
Qed.

(** A stripped string is empty or its first segment is not empty. *)
Lemma strip_first s :
  strip is_slash s = "" ∨
  ∃ c h t, split "/" (strip is_slash s) = String c h :: t.
Proof.
  unfold strip.
  induction s as [|c s IH]; [by left|].
  rewrite lstrip_unfold.
  destruct (is_slash c) eqn:Hc; [done|].
  right. rewrite rstrip_keep by auto.
  destruct (split_cons "/" (rstrip is_slash s)) as (h & t & Ht).
  exists c, h, t. by apply split_other.
Qed.

Lemma last_nonempty_filter (l : list string) :
  l ≠ [] → last l ≠ Some "" →
  (1 ≤ length (filter (λ seg : string, seg ≠ "") l))%nat.
Proof.
  induction l as [|x l IH]; [done|]. intros _ Hl.
  destruct l as [|y l].
  - simpl in Hl. rewrite filter_cons_True by naive_solver. simpl. lia.
  - rewrite last_cons_cons in Hl.
    destruct (decide (x = "")) as [->|Hne].
    + rewrite filter_nonempty_nil. by apply IH.
    + rewrite filter_cons_True by done. simpl. lia.
Qed.

(** After stripping, there are two segments or more exactly when there are
    two non-empty segments or more. *)
Lemma strip_split_length s :
  (length (split "/" (strip is_slash s)) < 2)%nat
  ↔ (length (path_segments s) < 2)%nat.
Proof.
  rewrite <-(segments_strip s). unfold path_segments. split.
  - intros H. pose proof (length_filter (λ seg : string, seg ≠ "")
                            (split "/" (strip is_slash s))). lia.
  - intros H.
    destruct (strip_first s) as [->|(c & h & t & Hs)]; [simpl; lia|].
    rewrite Hs in H |- *.
    destruct t as [|y t]; [simpl; lia|]. exfalso.
    rewrite filter_cons_True in H by done.
    assert (Hlast : last (y :: t) ≠ Some "").
    { destruct (rstrip_last (lstrip is_slash s)) as [Hr|Hr].
      - unfold strip in Hs. by rewrite Hr in Hs.
      - unfold strip in Hs. by rewrite Hs, last_cons_cons in Hr. }
    pose proof (last_nonempty_filter (y :: t) ltac:(done) Hlast).
    simpl in H. lia.
Qed.

(** ** [get_repo_info] *)

Example repo_info_plain :
  get_repo_info py_urlparse "https://github.com/IIEleven11/Talk2Repo"
  = Ok ("IIEleven11", "Talk2Repo").
Proof. vm_compute. reflexivity. Qed.

Example repo_info_git :
  get_repo_info py_urlparse "https://github.com/IIEleven11/Talk2Repo.git?x=1#frag"
  = Ok ("IIEleven11", "Talk2Repo").
Proof. vm_compute. reflexivity. Qed.

Example repo_info_empty_name :
  get_repo_info py_urlparse "https://github.com/a//b" = Ok ("a", "").
Proof. vm_compute. reflexivity. Qed.

(** C1, at a URL whose repository name has [.git] inside: the name
    returned for the repository [octocat.github.io] is [octocathub.io],
    since [replace] removes every occurrence of [.git] and not only a
    trailing one. *)
Theorem get_repo_info_inner_git :
  get_repo_info py_urlparse "https://github.com/octocat/octocat.github.io"
  = Ok ("octocat", "octocathub.io").
Proof. vm_compute. reflexivity. Qed.

Section RepoInfo.

Variable urlparse : string → result ParseResult.

Lemma get_repo_info_ok url parsed :
  urlparse url = Ok parsed →
  (2 ≤ length (split "/" (strip is_slash (pr_path parsed))))%nat →
  get_repo_info urlparse url
  = Ok (split "/" (strip is_slash (pr_path parsed)) !!! 0%nat,
        replace ".git" "" (split "/" (strip is_slash (pr_path parsed)) !!! 1%nat)).
Proof.
  intros Hp Hlen. unfold get_repo_info. rewrite Hp.
  by rewrite bool_decide_eq_false_2 by lia.
Qed.

Lemma get_repo_info_parse_error url e :
  urlparse url = Raise e → get_repo_info urlparse url = Raise e.
Proof. intros Hp. unfold get_repo_info. by rewrite Hp. Qed.

(** C8: when the URL parses, [get_repo_info] raises the error
    [InvalidRepositoryURL] exactly when the path of the URL has fewer than
    two non-empty segments, and it returns a pair when the path has two
    non-empty segments or more. *)
Theorem get_repo_info_error_iff url parsed :
  urlparse url = Ok parsed →
  (get_repo_info urlparse url = Raise InvalidRepositoryURL
   ↔ (length (path_segments (pr_path parsed)) < 2)%nat)
  ∧ ((2 ≤ length (path_segments (pr_path parsed)))%nat →
     ∃ owner repo, get_repo_info urlparse url = Ok (owner, repo)).
Proof.
  intros Hp.
  pose proof (strip_split_length (pr_path parsed)) as Hiff.
  split; [split|].
  - unfold get_repo_info. rewrite Hp.
    case_bool_decide; [tauto|done].
  - intros Hlt. unfold get_repo_info. rewrite Hp.
    by rewrite bool_decide_eq_true_2 by tauto.
  - intros Hge. eexists _, _. apply (get_repo_info_ok _ _ Hp). lia.
Qed.

End RepoInfo.

Lemma get_repo_info_error_iff_witness :
  py_urlparse "https://github.com/octocat/" = Ok octocat_parsed
  ∧ (get_repo_info py_urlparse "https://github.com/octocat/"
     = Raise InvalidRepositoryURL
     ↔ (length (path_segments (pr_path octocat_parsed)) < 2)%nat).
Proof.
  split; [reflexivity|].
  apply (get_repo_info_error_iff py_urlparse "https://github.com/octocat/"
           octocat_parsed).
  reflexivity.
Defined.

(** ** [flatten_contents] *)

(** Induction on a tree, with the property known of the children of a
    directory. *)
Lemma TreeNode_Forall_ind (P : TreeNode → Prop) :
  (∀ p c, P (FileNode p c)) →
  (∀ p sub, Forall P sub → P (DirNode p sub)) →
  ∀ n, P n.
Proof.
  intros Hfile Hdir. fix IH 1. intros [p c|p sub]; [apply Hfile|].
  apply Hdir. induction sub as [|n sub IHsub]; constructor; [apply IH|done].
Qed.

Lemma _flatten_item_dir p sub flat_files :
  _flatten_item (DirNode p sub) flat_files = _flatten sub flat_files.
Proof.
  simpl. revert flat_files.
  induction sub as [|n sub IH]; intros flat_files; [done|]. simpl. apply IH.
Qed.

Lemma _flatten_item_preorder n flat_files :
  _flatten_item n flat_files
  = flat_files ++ omap file_record (preorder_node n).
Proof.
  revert flat_files. induction n as [p c|p sub IH] using TreeNode_Forall_ind;
    intros flat_files; [done|].
  rewrite _flatten_item_dir.
  change (omap file_record (preorder_node (DirNode p sub)))
    with (omap file_record (concat (map preorder_node sub))).
  revert flat_files.
  induction IH as [|n sub Hn _ IHsub]; intros flat_files;
    [by rewrite app_nil_r|].
  simpl. rewrite Hn, IHsub, omap_app. by rewrite app_assoc.
Qed.

Lemma _flatten_preorder items flat_files :
  _flatten items flat_files = flat_files ++ omap file_record (preorder items).
Proof.
  revert flat_files. induction items as [|n items IH]; intros flat_files.
  - by rewrite app_nil_r.
  - simpl. unfold preorder in *. simpl.
    rewrite IH, _flatten_item_preorder, omap_app. by rewrite app_assoc.
Qed.

Lemma preorder_node_counts n :
  length (omap file_record (preorder_node n)) = count_files_node n
  ∧ length (preorder_node n) = (count_files_node n + count_dirs_node n)%nat.
Proof.
  induction n as [p c|p sub IH] using TreeNode_Forall_ind; [done|].
  change (omap file_record (preorder_node (DirNode p sub)))
    with (omap file_record (concat (map preorder_node sub))).
  change (length (preorder_node (DirNode p sub)))
    with (S (length (concat (map preorder_node sub)))).
  simpl count_files_node. simpl count_dirs_node.
  induction IH as [|n sub [Hf Hn] _ [IHf IHn]]; [done|].
  simpl. rewrite omap_app, !length_app, Hf, Hn, IHf.
  split; [done|]. simpl in IHn. lia.
Qed.

Lemma preorder_counts t :
  length (omap file_record (preorder t)) = count_files t
  ∧ length (preorder t) = (count_files t + count_dirs t)%nat.
Proof.
  unfold preorder, count_files, count_dirs.
  induction t as [|n t [IHf IHn]]; [done|].
  destruct (preorder_node_counts n) as [Hf Hn].
  simpl. rewrite omap_app, !length_app, Hf, Hn, IHf, IHn. lia.
Qed.

(** C5: [flatten_contents] is a total function; on a tree with [f] file
    nodes and [d] directory nodes (so [f + d] nodes in all) it returns
    exactly [f] records, which are the records {path, content} of the
    file nodes met by the depth-first traversal that visits a directory
    before its children and the children in the order of their list;
    directory nodes give no record. *)
Theorem flatten_contents_preorder (contents : list TreeNode) :
  flatten_contents contents = omap file_record (preorder contents)
  ∧ length (flatten_contents contents) = count_files contents
  ∧ length (preorder contents)
    = (count_files contents + count_dirs contents)%nat.
Proof.
  unfold flatten_contents. rewrite _flatten_preorder. simpl.
  destruct (preorder_counts contents) as [Hf Hn]. by rewrite Hf, Hn.
Qed.

Example flatten_demo :
  flatten_contents
    [FileNode "a.py" "x=1"; DirNode "c" [FileNode "c/d.py" "y=2"];
     DirNode "e" []; FileNode "z" ""]
  = [ {| path := "a.py"; content := "x=1" |};
      {| path := "c/d.py"; content := "y=2" |};
      {| path := "z"; content := "" |} ].
Proof. reflexivity. Qed.

(** ** [get_contents] *)

Lemma is_excluded_true p ext :
  ext ∈ excluded_extensions → endswith p ext = true → is_excluded p = true.
Proof.
  intros Hin He. unfold is_excluded. apply existsb_exists.
  exists ext. split; [by apply list_elem_of_In|done].
Qed.

Lemma is_excluded_false p ext :
  is_excluded p = false → ext ∈ excluded_extensions → endswith p ext = false.
Proof.
  intros Hex Hin. destruct (endswith p ext) eqn:He; [|done].
  by rewrite (is_excluded_true p ext Hin He) in Hex.
Qed.

Lemma preorder_app t1 t2 : preorder (t1 ++ t2) = preorder t1 ++ preorder t2.
Proof. unfold preorder. by rewrite map_app, concat_app. Qed.

Lemma no_excluded_file_nil : no_excluded_file [].
Proof. intros p c H. by apply elem_of_nil in H. Qed.

Lemma no_excluded_file_snoc_file t p c :
  no_excluded_file t → is_excluded p = false →
  no_excluded_file (t ++ [FileNode p c]).
Proof.
  intros Ht Hp p' c' Hin. rewrite preorder_app in Hin.
  apply elem_of_app in Hin as [Hin|Hin]; [by eapply Ht|].
  unfold preorder in Hin. simpl in Hin.
  apply list_elem_of_singleton in Hin. by injection Hin as -> ->.
Qed.

Lemma no_excluded_file_snoc_dir t p sub :
  no_excluded_file t → no_excluded_file sub →
  no_excluded_file (t ++ [DirNode p sub]).
Proof.
  intros Ht Hsub p' c' Hin. rewrite preorder_app in Hin.
  apply elem_of_app in Hin as [Hin|Hin]; [by eapply Ht|].
  unfold preorder in Hin. simpl in Hin. rewrite app_nil_r in Hin.
  apply elem_of_cons in Hin as [Hin|Hin]; [done|]. by eapply Hsub.
Qed.

Section Fetch.

Variable env : Env.

Lemma get_contents_loop_skip rec item rest contents w :
  item_type item = "file" → is_excluded (item_path item) = true →
  get_contents_loop env rec (item :: rest) contents w
  = get_contents_loop env rec rest contents w.
Proof. intros Ht He. simpl. by rewrite Ht, He. Qed.

Lemma get_contents_loop_clean rec :
  (∀ p w t w', rec p w = Some (Ok t, w') → no_excluded_file t) →
  ∀ items contents w t w',
    no_excluded_file contents →
    get_contents_loop env rec items contents w = Some (Ok t, w') →
    no_excluded_file t.
Proof.
  intros Hrec items.
  induction items as [|item rest IH]; intros contents w t w' Hc Hrun.
  - simpl in Hrun. by injection Hrun as <- <-.
  - simpl in Hrun.
    destruct (String.eqb (item_type item) "file") eqn:Hfile; simpl in Hrun.
    + destruct (is_excluded (item_path item)) eqn:Hex.
      * by eapply IH.
      * destruct (get_file_content env (item_download_url item) w)
          as [[file_content|e] w1]; [|done].
        eapply IH; [|exact Hrun]. by apply no_excluded_file_snoc_file.
    + destruct (String.eqb (item_type item) "dir"); [|by eapply IH].
      destruct (rec (item_path item) w) as [[[dir_contents|e] w1]|] eqn:Hr;
        [|done..].
      eapply IH; [|exact Hrun].
      apply no_excluded_file_snoc_dir; [done|]. by eapply Hrec.
Qed.

Lemma get_contents_clean fuel :
  ∀ owner repo p w t w',
    get_contents env fuel owner repo p w = Some (Ok t, w') →
    no_excluded_file t.
Proof.
  induction fuel as [|fuel IH]; intros owner repo p w t w' Hrun; [done|].
  simpl in Hrun.
  match type of Hrun with
  | match ?m with _ => _ end = _ => destruct m as [[items|e] w1]; [|done]
  end.
  eapply get_contents_loop_clean; [|apply no_excluded_file_nil|exact Hrun].
  intros ????. apply IH.
Qed.

(** The depth allowed to the recursion does not change a result. *)
Lemma get_contents_loop_mono rec rec' :
  (∀ p w r, rec p w = Some r → rec' p w = Some r) →
  ∀ items contents w r,
    get_contents_loop env rec items contents w = Some r →
    get_contents_loop env rec' items contents w = Some r.
Proof.
  intros Hrec items.
  induction items as [|item rest IH]; intros contents w r Hrun; [done|].
  simpl in Hrun |- *.
  destruct (String.eqb (item_type item) "file" && is_excluded (item_path item));
    [by apply IH|].
  destruct (String.eqb (item_type item) "file").
  { destruct (get_file_content env (item_download_url item) w)
      as [[file_content|e] w1]; [by apply IH|done]. }
  destruct (String.eqb (item_type item) "dir"); [|by apply IH].
  destruct (rec (item_path item) w) as [[[dir_contents|e] w1]|] eqn:Hr;
    [| |done]; rewrite (Hrec _ _ _ Hr); [by apply IH|done].
Qed.

Lemma get_contents_S fuel owner repo p w :
  get_contents env (S fuel) owner repo p w
  = match (response <- requests_get env
                         ("https://api.github.com/repos/" +:+ owner +:+ "/"
                          +:+ repo +:+ "/contents/" +:+ p)
                         [("ref", "main")] ;;
           raise_for_status response ;;
           items <- response_json response ;;
           ret items) w with
    | (Raise e, w1) => Some (Raise e, w1)
    | (Ok items, w1) =>
        get_contents_loop env (get_contents env fuel owner repo)
          match items with JList l => l | JItem i => [i] end [] w1
    end.
Proof. done. Qed.

Lemma get_contents_mono fuel :
  ∀ owner repo p w r,
    get_contents env fuel owner repo p w = Some r →
    get_contents env (S fuel) owner repo p w = Some r.
Proof.
  induction fuel as [|fuel IH]; intros owner repo p w r Hrun; [done|].
  rewrite get_contents_S in Hrun |- *.
  match type of Hrun with
  | match ?m with _ => _ end = _ => destruct m as [[items|e] w1]; [|done]
  end.
  eapply get_contents_loop_mono; [|exact Hrun].
  intros ???. apply IH.
Qed.

(** C7: an entry of a listing that is a file and whose path ends with an
    extension of the denylist is skipped by the loop: the nodes built so
    far and the world (so the log of the requests made) are what they were
    before the entry; and in a tree returned by [get_contents], at any
    depth, no file node has a path that ends with an extension of the
    denylist.  Both hold for every extension of the denylist. *)
Theorem excluded_files_skipped (ext : string) :
  ext ∈ excluded_extensions →
  (∀ rec item rest contents w,
     item_type item = "file" → endswith (item_path item) ext = true →
     get_contents_loop env rec (item :: rest) contents w
     = get_contents_loop env rec rest contents w)
  ∧ (∀ fuel owner repo p w tree w' fp fc,
       get_contents env fuel owner repo p w = Some (Ok tree, w') →
       FileNode fp fc ∈ preorder tree → endswith fp ext = false).
Proof.
  intros Hext. split.
  - intros rec item rest contents w Ht He.
    apply get_contents_loop_skip; [done|]. by eapply is_excluded_true.
  - intros fuel owner repo p w tree w' fp fc Hrun Hin.
    eapply is_excluded_false; [|done].
    by eapply (get_contents_clean _ _ _ _ _ _ _ Hrun).
Qed.

End Fetch.

Example fetch_demo :
  fst <$> get_contents (demo_env chat_up) 2 "o" "r" "" (world0 [])
  = Some (Ok [FileNode "a.py" "x=1"; DirNode "c" [FileNode "c/d.py" "y=2"]]).
Proof. vm_compute. reflexivity. Qed.

Example fetch_demo_requests :
  (http_log ∘ snd) <$> get_contents (demo_env chat_up) 2 "o" "r" "" (world0 [])
  = Some ["https://api.github.com/repos/o/r/contents/";
          "https://raw.example/a.py";
          "https://api.github.com/repos/o/r/contents/c";
          "https://raw.example/c/d.py"].
Proof. vm_compute. reflexivity. Qed.

Lemma excluded_files_skipped_witness :
  ".png" ∈ excluded_extensions
  ∧ get_contents_loop (demo_env chat_up)
      (get_contents (demo_env chat_up) 1 "o" "r")
      (drop 1 demo_root) [FileNode "a.py" "x=1"] (world0 [])
    = get_contents_loop (demo_env chat_up)
        (get_contents (demo_env chat_up) 1 "o" "r")
        (drop 2 demo_root) [FileNode "a.py" "x=1"] (world0 [])
  ∧ ∀ fp fc,
      FileNode fp fc
      ∈ preorder [FileNode "a.py" "x=1"; DirNode "c" [FileNode "c/d.py" "y=2"]] →
      endswith fp ".png" = false.
Proof.
  assert (Hin : ".png" ∈ excluded_extensions)
    by (apply list_elem_of_In; simpl; tauto).
  destruct (excluded_files_skipped (demo_env chat_up) ".png" Hin)
    as [Hskip Htree].
  split_and!; [exact Hin|by apply Hskip|].
  intros fp fc.
  by apply (Htree 2%nat "o" "r" "" (world0 []) _
              (set_http_log
                 ["https://api.github.com/repos/o/r/contents/";
                  "https://raw.example/a.py";
                  "https://api.github.com/repos/o/r/contents/c";
                  "https://raw.example/c/d.py"] (world0 []))).
Defined.

(** ** [ingest_into_vector_db] *)

Section Ingest.

Variable env : Env.

Lemma get_or_create_collection_ok name w :
  collection_error env w name = None →
  ∃ w1, get_or_create_collection env name w = (Ok name, w1)
        ∧ store_log w1 = store_log w ++ [CallGetOrCreate name]
        ∧ default [] (db w1 !! name) = default [] (db w !! name)
        ∧ stdin w1 = stdin w ∧ stdout w1 = stdout w
        ∧ llm_log w1 = llm_log w ∧ http_log w1 = http_log w.
Proof.
  intros Herr. unfold get_or_create_collection. rewrite Herr. simpl.
  destruct (db w !! name) as [docs|] eqn:Hdb.
  - eexists. split; [done|]. simpl. by rewrite Hdb.
  - eexists. split; [done|]. simpl. by rewrite lookup_insert_eq.
Qed.

(** C10: when the collection is obtained, the store receives one [add]
    call, whose three sequences have the length of the flattened file
    sequence and are aligned with it: at every index, the document is the
    content of the file, the metadata record is exactly {path: the path
    of the file}, and the id is that path. *)
Theorem ingest_alignment (files : list FlatDocument) (collection_name : string)
    (w : World) :
  collection_error env w collection_name = None →
  ∃ texts metadatas ids,
    store_log (ingest_into_vector_db env files collection_name w).2
    = store_log w ++ [CallGetOrCreate collection_name;
                      CallAdd collection_name texts metadatas ids]
    ∧ length texts = length files
    ∧ length metadatas = length files
    ∧ length ids = length files
    ∧ ∀ (i : nat) file, files !! i = Some file →
        texts !! i = Some (content file)
        ∧ metadatas !! i = Some {[ "path" := path file ]}
        ∧ ids !! i = Some (path file).
Proof.
  intros Herr.
  destruct (get_or_create_collection_ok _ _ Herr) as (w1 & Hgoc & Hlog & _).
  exists (map content files),
         (map (λ file, ({[ "path" := path file ]} : gmap string string)) files),
         (map path files).
  split_and!.
  - unfold ingest_into_vector_db, bind. rewrite Hgoc.
    unfold collection_add at 1.
    destruct (add_reply env _ _); simpl; rewrite Hlog;
      by rewrite <-app_assoc.
  - apply length_map.
  - apply length_map.
  - apply length_map.
  - intros i file Hi.
    change map with (@fmap list _) in *.
    rewrite !list_lookup_fmap, Hi. done.
Qed.

End Ingest.

Lemma ingest_alignment_witness :
  ∃ texts metadatas ids,
    store_log (ingest_into_vector_db (demo_env chat_up)
                 [ {| path := "a.py"; content := "x=1" |};
                   {| path := "c/d.py"; content := "y=2" |} ] "t"
                 (world0 [])).2
    = [CallGetOrCreate "t"; CallAdd "t" texts metadatas ids]
    ∧ texts = ["x=1"; "y=2"] ∧ ids = ["a.py"; "c/d.py"]
    ∧ metadatas !! 1%nat = Some {[ "path" := "c/d.py" ]}.
Proof.
  destruct (ingest_alignment (demo_env chat_up)
              [ {| path := "a.py"; content := "x=1" |};
                {| path := "c/d.py"; content := "y=2" |} ] "t" (world0 [])
              eq_refl)
    as (texts & metadatas & ids & Hlog & Ht & Hm & Hi & Hal).
  exists texts, metadatas, ids.
  destruct (Hal 0%nat _ eq_refl) as (Ht0 & _ & Hi0).
  destruct (Hal 1%nat _ eq_refl) as (Ht1 & Hm1 & Hi1).
  split_and!; [exact Hlog| | |exact Hm1].
  - destruct texts as [|t0 [|t1 [|??]]]; simplify_eq/=. done.
  - destruct ids as [|i0 [|i1 [|??]]]; simplify_eq/=. done.
Defined.

(** ** [query_vector_db] *)

Lemma fold_append {A} (l acc : list A) :
  fold_left (λ docs doc, docs ++ [doc]) l acc = acc ++ l.
Proof.
  revert acc. induction l as [|x l IH]; intros acc; simpl.
  - by rewrite app_nil_r.
  - by rewrite IH, <-app_assoc.
Qed.

(** The two nested loops of [query_vector_db] concatenate the lists. *)
Lemma fold_nested_concat {A} (results : list (list A)) (acc : list A) :
  fold_left (λ docs doc_list,
               fold_left (λ docs doc, docs ++ [doc]) doc_list docs)
            results acc
  = acc ++ concat results.
Proof.
  revert acc. induction results as [|l results IH]; intros acc; simpl.
  - by rewrite app_nil_r.
  - by rewrite IH, fold_append, <-app_assoc.
Qed.

Section Retrieval.

Variable env : Env.

(** What [query_vector_db] returns, once the collection is obtained: the
    error of the client for a number of results that is not positive,
    and otherwise the error of the store or the concatenation of its
    nested answer. *)
Lemma query_vector_db_result query name k w :
  collection_error env w name = None →
  (query_vector_db env query name k w).1
  = if k <=? 0
    then Raise (LibraryError "TypeError"
                  ("Number of requested results " +:+ str_of_Z k
                   +:+ ", cannot be negative, or zero."))
    else match query_reply env (default [] (db w !! name)) [query] k with
         | Ok res => Ok (concat res)
         | Raise e => Raise e
         end.
Proof.
  intros Herr.
  destruct (get_or_create_collection_ok env _ _ Herr)
    as (w1 & Hgoc & _ & Hdb & _).
  unfold query_vector_db, bind. rewrite Hgoc.
  unfold collection_query. rewrite Hdb.
  destruct (k <=? 0); [done|].
  destruct (query_reply env _ _ _) as [res|e]; [|done].
  simpl. by rewrite fold_nested_concat.
Qed.

(** A number of results that is not positive is refused, whatever the
    store holds. *)
Lemma query_vector_db_not_positive query name k w :
  collection_error env w name = None → k ≤ 0 →
  (query_vector_db env query name k w).1
  = Raise (LibraryError "TypeError"
             ("Number of requested results " +:+ str_of_Z k
              +:+ ", cannot be negative, or zero.")).
Proof.
  intros Herr Hk. rewrite (query_vector_db_result _ _ _ _ Herr).
  by rewrite (proj2 (Z.leb_le k 0) Hk).
Qed.

(** The contract of the vector store for a positive number of results: an
    answer has one list for each query text, none longer than the number
    of results requested or than the number of documents of the
    collection; and a query against a collection without documents is
    answered. *)
Hypothesis query_bounded : ∀ docs query_texts k res,
  0 < k →
  query_reply env docs query_texts k = Ok res →
  length res = length query_texts
  ∧ Forall (λ l : list string,
              Z.of_nat (length l) ≤ Z.min k (Z.of_nat (length docs))) res.
Hypothesis query_empty : ∀ query_texts k,
  0 < k → ∃ res, query_reply env [] query_texts k = Ok res.

(** C9, amended: for a number of results [k] of one or more, once the
    collection is obtained and holds the documents [docs]: the store is
    asked for [k] results for the single text of the query; when it
    answers, [query_vector_db] returns the concatenation, in order, of
    its nested answer, which has at most [min k (length docs)] elements;
    when it fails, its exception is raised; and when the collection holds
    no document the function returns the empty sequence, not an error. *)
Theorem query_vector_db_bound (query name : string) (k : Z) (w : World) :
  0 < k →
  collection_error env w name = None →
  store_log (query_vector_db env query name k w).2
  = store_log w ++ [CallGetOrCreate name; CallQuery name [query] k]
  ∧ (∀ res,
       query_reply env (default [] (db w !! name)) [query] k = Ok res →
       (query_vector_db env query name k w).1 = Ok (concat res)
       ∧ Z.of_nat (length (concat res))
         ≤ Z.min k (Z.of_nat (length (default [] (db w !! name)))))
  ∧ (∀ e,
       query_reply env (default [] (db w !! name)) [query] k = Raise e →
       (query_vector_db env query name k w).1 = Raise e)
  ∧ (default [] (db w !! name) = [] →
     (query_vector_db env query name k w).1 = Ok []).
Proof.
  intros Hk Herr. split_and!.
  - destruct (get_or_create_collection_ok env _ _ Herr)
      as (w1 & Hgoc & Hlog & _).
    unfold query_vector_db, bind. rewrite Hgoc. unfold collection_query.
    destruct (k <=? 0); [|destruct (query_reply env _ _ _)]; simpl;
      by rewrite Hlog, <-app_assoc.
  - intros res Hq. rewrite (query_vector_db_result _ _ _ _ Herr).
    rewrite (proj2 (Z.leb_gt k 0) Hk), Hq. split; [done|].
    destruct (query_bounded _ _ _ _ Hk Hq) as [Hlen Hall].
    destruct res as [|l [|??]]; simplify_eq/=.
    rewrite app_nil_r. by apply Forall_inv in Hall.
  - intros e Hq. rewrite (query_vector_db_result _ _ _ _ Herr).
    by rewrite (proj2 (Z.leb_gt k 0) Hk), Hq.
  - intros Hnil. rewrite (query_vector_db_result _ _ _ _ Herr).
    rewrite (proj2 (Z.leb_gt k 0) Hk), Hnil.
    destruct (query_empty [query] k Hk) as [res Hq]. rewrite Hq.
    destruct (query_bounded _ _ _ _ Hk Hq) as [Hlen Hall].
    destruct res as [|l [|??]]; simplify_eq/=.
    apply Forall_inv in Hall. destruct l; [done|]. simpl in Hall. lia.
Qed.

End Retrieval.

Lemma demo_query_bounded docs query_texts k res :
  0 < k →
  demo_query docs query_texts k = Ok res →
  length res = length query_texts
  ∧ Forall (λ l : list string,
              Z.of_nat (length l) ≤ Z.min k (Z.of_nat (length docs))) res.
Proof.
  unfold demo_query. intros Hk [= <-]. split; [by rewrite length_map|].
  apply Forall_forall. intros l Hl.
  apply list_elem_of_In, in_map_iff in Hl as (? & <- & _).
  rewrite length_take, length_map. lia.
Qed.

Lemma demo_query_empty query_texts k :
  0 < k → ∃ res, demo_query [] query_texts k = Ok res.
Proof. intros Hk. unfold demo_query. by eauto. Qed.

Lemma query_vector_db_bound_witness :
  (query_vector_db (demo_env chat_up) "what?" "t" 5 (world0 [])).1 = Ok []
  ∧ requested_k (store_log (query_vector_db (demo_env chat_up) "what?" "t" 5
                              (world0 [])).2) = [5].
Proof.
  destruct (query_vector_db_bound (demo_env chat_up)
              demo_query_bounded demo_query_empty "what?" "t" 5 (world0 []))
    as (Hlog & _ & _ & Hempty); [lia|reflexivity|].
  split; [by apply Hempty|]. by rewrite Hlog.
Defined.

(** C9, as stated, fails: for [k = 0], which the line ["0"] gives, the
    query against a collection without documents is an error of the
    client of the store, not an empty sequence. *)
Lemma query_vector_db_zero_counterexample :
  default [] (db (world0 []) !! "t") = []
  ∧ (query_vector_db (demo_env chat_up) "what?" "t" 0 (world0 [])).1
    = Raise (LibraryError "TypeError"
               "Number of requested results 0, cannot be negative, or zero.").
Proof. split; [reflexivity|by vm_compute]. Qed.

Example query_after_ingest :
  (w ← snd <$> Some (ingest_into_vector_db (demo_env chat_up)
                       [ {| path := "a.py"; content := "x=1" |};
                         {| path := "c/d.py"; content := "y=2" |} ] "t"
                       (world0 []));
   Some (query_vector_db (demo_env chat_up) "what?" "t" 1 w).1)
  = Some (Ok ["x=1"]).
Proof. vm_compute. reflexivity. Qed.

(** ** [truncate_to_token_limit] *)


Example slice_to_negative : slice_to [1; 2; 3; 4] (-1) = [1; 2; 3].
Proof. reflexivity. Qed.

Section Truncate.

Variable env : Env.

(** Once the tokenizer is obtained and has encoded the text, the function
    compares and cuts. *)
Lemma truncate_unfold text max_tokens enc tok tokens :
  encoding_for_model env enc = Ok tok → encode tok text = Ok tokens →
  truncate_to_token_limit env text max_tokens enc
  = if bool_decide (Z.of_nat (length tokens) ≤ max_tokens) then Ok text
    else Ok (decode tok (slice_to tokens max_tokens)).
Proof. intros Htok Henc. unfold truncate_to_token_limit. by rewrite Htok, Henc. Qed.






End Truncate.

(** The stand-in tokenizer loses nothing of a text. *)
Lemma char_decode_encode s : char_decode (char_encode s) = s.
Proof.
  unfold char_decode, char_encode. rewrite map_map.
  rewrite (map_ext _ id), map_id; [apply string_of_list_ascii_of_string|].
  intros c. unfold ascii_of_Z, ascii_code.
  by rewrite Nat2Z.id, ascii_nat_embedding.
Qed.



(** ** [generate_gpt4_response] *)

Section Answer.

Variable env : Env.

Lemma map_M_app_raise {A B} (f : A → M B) pre x post w ys w1 e w2 :
  map_M f pre w = (Ok ys, w1) → f x w1 = (Raise e, w2) →
  map_M f (pre ++ x :: post) w = (Raise e, w2).
Proof.
  revert w ys. induction pre as [|a pre IH]; intros w ys Hpre Hx.
  - injection Hpre as <- <-. simpl. unfold bind. by rewrite Hx.
  - simpl in Hpre |- *. unfold bind in Hpre |- *.
    destruct (f a w) as [[y|e'] w'] eqn:Ha; [|done].
    destruct (map_M f pre w') as [[ys'|e'] w''] eqn:Hm; [|done].
    unfold ret in Hpre. injection Hpre as <- <-.
    by rewrite (IH _ _ Hm Hx).
Qed.

Lemma summarize_text_raise doc max_tokens w e :
  chat_reply env w (summary_request doc max_tokens) = Raise e →
  summarize_text env doc max_tokens w
  = (Raise e,
     set_llm_log (llm_log w ++ [summary_request doc max_tokens]) w).
Proof.
  intros Hr. unfold summarize_text, bind, chat_completion. by rewrite Hr.
Qed.

(** The three phases of [generate_gpt4_response]: the summaries and the
    truncation, outside the [try], then the final completion call, inside
    it. *)
Lemma generate_gpt4_response_unfold query context_docs max_context_tokens w :
  generate_gpt4_response env query context_docs max_context_tokens w
  = match map_M (λ doc, summarize_text env doc 200) context_docs w with
    | (Raise e, w1) => (Raise e, w1)
    | (Ok sums, w1) =>
        match truncate_to_token_limit env (join (nl +:+ nl) sums)
                max_context_tokens "gpt-4" with
        | Raise e => (Raise e, w1)
        | Ok context =>
            let req := answer_request (answer_prompt context query) in
            let w2 := set_llm_log (llm_log w1 ++ [req]) w1 in
            match chat_reply env w1 req with
            | Ok content => (Ok (strip_ws content), w2)
            | Raise e =>
                (Ok apology,
                 set_stdout (stdout w2 ++ ["Error generating GPT-4 response: "
                                           +:+ exc_str e]) w2)
            end
        end
    end.
Proof.
  unfold generate_gpt4_response, bind at 1.
  destruct (map_M _ context_docs w) as [[sums|e] w1]; [|done].
  unfold bind at 1, of_result.
  destruct (truncate_to_token_limit _ _ _ _) as [context|e]; [|done].
  unfold try_except, bind, chat_completion. cbv zeta.
  by destruct (chat_reply env w1 _).
Qed.

(** C6: once the summaries are made and the context is cut to the token
    limit, if the final completion call fails, [generate_gpt4_response]
    returns the fixed apology string and raises nothing; if the call
    succeeds, it returns the content of the completion, stripped.  (When
    the tokenizer fails, there is no final call: its exception is
    raised.) *)
Theorem generate_gpt4_response_final_call (query : string)
    (context_docs : list string) (max_context_tokens : Z) (w : World)
    (sums : list string) (w1 : World) :
  map_M (λ doc, summarize_text env doc 200) context_docs w = (Ok sums, w1) →
  match truncate_to_token_limit env (join (nl +:+ nl) sums)
          max_context_tokens "gpt-4" with
  | Ok context =>
      let req := answer_request (answer_prompt context query) in
      (∀ e, chat_reply env w1 req = Raise e →
            (generate_gpt4_response env query context_docs
               max_context_tokens w).1 = Ok apology)
      ∧ (∀ answer, chat_reply env w1 req = Ok answer →
            (generate_gpt4_response env query context_docs
               max_context_tokens w).1 = Ok (strip_ws answer))
  | Raise e =>
      generate_gpt4_response env query context_docs max_context_tokens w
      = (Raise e, w1)
  end.
Proof.
  intros Hsum. rewrite generate_gpt4_response_unfold, Hsum.
  destruct (truncate_to_token_limit _ _ _ _) as [context|e]; [|done].
  cbv zeta. split; intros ? ->; done.
Qed.

(** C2, amended: when the summaries of the documents before [doc] are
    made and the completion call that summarizes [doc] fails, the
    exception leaves [generate_gpt4_response]: the result is the exception
    raised, not the apology string, and the world is the one left by the
    failed call (no other completion call, nothing printed). *)
Theorem summarizer_failure_propagates (query : string)
    (pre : list string) (doc : string) (post : list string)
    (max_context_tokens : Z) (w : World) (sums : list string) (w1 : World)
    (e : Exc) :
  map_M (λ d, summarize_text env d 200) pre w = (Ok sums, w1) →
  chat_reply env w1 (summary_request doc 200) = Raise e →
  generate_gpt4_response env query (pre ++ doc :: post) max_context_tokens w
  = (Raise e, set_llm_log (llm_log w1 ++ [summary_request doc 200]) w1).
Proof.
  intros Hpre Hfail. rewrite generate_gpt4_response_unfold.
  by rewrite (map_M_app_raise _ _ _ _ _ _ _ _ _ Hpre
                (summarize_text_raise _ _ _ _ Hfail)).
Qed.

End Answer.

Lemma generate_gpt4_response_final_call_witness :
  (generate_gpt4_response (demo_env chat_answer_down) "what?" ["x=1"; "y=2"]
     6000 (world0 [])).1 = Ok apology.
Proof.
  destruct (generate_gpt4_response_final_call (demo_env chat_answer_down)
              "what?" ["x=1"; "y=2"] 6000 (world0 []) _ _ eq_refl)
    as [Hdown _].
  by apply (Hdown api_down).
Defined.

Example generate_answer :
  (generate_gpt4_response (demo_env chat_up) "what?" ["x=1"; "y=2"]
     6000 (world0 [])).1 = Ok "An answer.".
Proof. vm_compute. reflexivity. Qed.

Lemma summarizer_failure_propagates_witness :
  (generate_gpt4_response (demo_env chat_second_down) "what?" ["x=1"; "y=2"]
     6000 (world0 [])).1 = Raise api_down
  ∧ llm_log (generate_gpt4_response (demo_env chat_second_down) "what?"
               ["x=1"; "y=2"] 6000 (world0 [])).2
    = [summary_request "x=1" 200; summary_request "y=2" 200].
Proof.
  change ["x=1"; "y=2"] with (["x=1"] ++ "y=2" :: []).
  rewrite (summarizer_failure_propagates (demo_env chat_second_down)
             "what?" ["x=1"] "y=2" [] 6000 (world0 []) ["a summary"]
             (set_llm_log [summary_request "x=1" 200] (world0 []))
             api_down eq_refl eq_refl).
  split; reflexivity.
Defined.

(** C2, as stated, fails: with an LLM endpoint that is down for the
    summaries, the summarizer call for the first document fails and
    [generate_gpt4_response] raises that exception; it does not return
    the apology string. *)
Lemma summarizer_failure_counterexample :
  chat_reply (demo_env chat_summary_down) (world0 [])
    (summary_request "x=1" 200) = Raise api_down
  ∧ (generate_gpt4_response (demo_env chat_summary_down) "what?"
       ["x=1"; "y=2"] 6000 (world0 [])).1 = Raise api_down
  ∧ (generate_gpt4_response (demo_env chat_summary_down) "what?"
       ["x=1"; "y=2"] 6000 (world0 [])).1 ≠ Ok apology.
Proof. split_and!; [reflexivity|by vm_compute|by vm_compute]. Qed.

(** ** [query_main] *)

Lemma keeps_ret {A} (a : A) : keeps_store_log (ret a).
Proof. done. Qed.

Lemma keeps_of_result {A} (r : result A) : keeps_store_log (of_result r).
Proof. done. Qed.

Lemma keeps_bind {A B} (m : M A) (k : A → M B) :
  keeps_store_log m → (∀ a, keeps_store_log (k a)) →
  keeps_store_log (bind m k).
Proof.
  intros Hm Hk w. unfold bind. specialize (Hm w).
  destruct (m w) as [[a|e] w1]; [|done]. by rewrite Hk.
Qed.

Lemma keeps_try_except {A} (m : M A) (h : Exc → M A) :
  keeps_store_log m → (∀ e, keeps_store_log (h e)) →
  keeps_store_log (try_except m h).
Proof.
  intros Hm Hh w. unfold try_except. specialize (Hm w).
  destruct (m w) as [[a|e] w1]; [done|]. by rewrite Hh.
Qed.

Lemma keeps_print s : keeps_store_log (print s).
Proof. done. Qed.

Lemma keeps_map_M {A B} (f : A → M B) xs :
  (∀ x, keeps_store_log (f x)) → keeps_store_log (map_M f xs).
Proof.
  intros Hf. induction xs as [|x xs IH]; [done|].
  simpl. apply keeps_bind; [done|]. intros y.
  apply keeps_bind; [done|]. intros ys. apply keeps_ret.
Qed.

#[local] Hint Resolve keeps_ret keeps_print : keeps.

Section QueryMain.

Variable env : Env.

Lemma keeps_chat_completion req : keeps_store_log (chat_completion env req).
Proof. done. Qed.

Lemma keeps_summarize_text doc n : keeps_store_log (summarize_text env doc n).
Proof.
  apply keeps_bind; [apply keeps_chat_completion|]. intros; apply keeps_ret.
Qed.

Lemma keeps_generate query docs n :
  keeps_store_log (generate_gpt4_response env query docs n).
Proof.
  apply keeps_bind.
  - apply keeps_map_M. intros; apply keeps_summarize_text.
  - intros sums. apply keeps_bind; [apply keeps_of_result|].
    intros context. apply keeps_try_except.
    + apply keeps_bind; [apply keeps_chat_completion|]. auto with keeps.
    + intros e. apply keeps_bind; auto with keeps.
Qed.

Lemma query_vector_db_log query name k w :
  collection_error env w name = None →
  store_log (query_vector_db env query name k w).2
  = store_log w ++ [CallGetOrCreate name; CallQuery name [query] k].
Proof.
  intros Herr.
  destruct (get_or_create_collection_ok env _ _ Herr)
    as (w1 & Hgoc & Hlog & _).
  unfold query_vector_db, bind. rewrite Hgoc.
  unfold collection_query.
  destruct (k <=? 0); [|destruct (query_reply env _ _ _)]; simpl;
    by rewrite Hlog, <-app_assoc.
Qed.

(** The part of [query_main] that follows the choice of [top_k]. *)
Lemma query_main_requests w cname q ks rest k :
  stdin w = cname :: q :: ks :: rest →
  (∀ w' name, collection_error env w' name = None) →
  (∀ w', coerce_top_k (strip_ws ks) w' = (Ok k, w')) →
  requested_k (store_log (query_main env w).2)
  = requested_k (store_log w) ++ [k].
Proof.
  intros Hin Herr Hk.
  unfold query_main. unfold bind at 1. unfold input at 1. simpl.
  rewrite Hin.
  unfold bind at 1. unfold input at 1. simpl.
  unfold bind at 1. unfold input at 1. simpl.
  unfold bind at 1. rewrite Hk.
  unfold bind at 1. unfold print at 1. simpl.
  unfold bind at 1.
  match goal with
  | |- context [query_vector_db env ?a ?b ?c ?d] =>
      pose proof (query_vector_db_log a b c d (Herr _ _)) as Hlog;
      destruct (query_vector_db env a b c d) as [[docs|e] w2]
  end; simpl in Hlog.
  - match goal with
    | |- context [store_log (?m w2).2] =>
        assert (Hkeep : keeps_store_log m)
    end.
    { repeat (apply keeps_bind; [auto using keeps_generate with keeps|intros]).
      auto with keeps. }
    rewrite Hkeep, Hlog. unfold requested_k. by rewrite omap_app.
  - simpl. rewrite Hlog. unfold requested_k. by rewrite omap_app.
Qed.

(** When the line typed for the number of documents makes the conversion
    raise, [query_main] raises that exception before any call to the
    vector store or to the LLM. *)
Lemma query_main_coerce_raise w cname q ks rest e :
  stdin w = cname :: q :: ks :: rest →
  (∀ w', coerce_top_k (strip_ws ks) w' = (Raise e, w')) →
  (query_main env w).1 = Raise e
  ∧ store_log (query_main env w).2 = store_log w
  ∧ llm_log (query_main env w).2 = llm_log w.
Proof.
  intros Hin Hk.
  remember (query_main env w) as run eqn:Hrun.
  unfold query_main in Hrun.
  unfold bind at 1, input at 1 in Hrun. simpl in Hrun. rewrite Hin in Hrun.
  unfold bind at 1, input at 1 in Hrun. simpl in Hrun.
  unfold bind at 1, input at 1 in Hrun. simpl in Hrun.
  unfold bind at 1 in Hrun. rewrite Hk in Hrun. by subst run.
Qed.

Lemma int_scan_decimal s digits acc :
  str_forallb is_ascii_digit s = true →
  int_scan digits acc false s
  = Some ((digits + String.length s)%nat,
          fold_left (λ a c, 10 * a + Z.of_nat (ascii_code c - 48))
                    (list_ascii_of_string s) acc, "").
Proof.
  revert digits acc. induction s as [|c s IH]; intros digits acc Hd.
  - cbn. by rewrite Nat.add_0_r.
  - cbn [str_forallb] in Hd. apply andb_prop in Hd as [Hc Hs].
    cbn [int_scan]. rewrite Hc, (IH _ _ Hs).
    cbn [String.length list_ascii_of_string fold_left].
    by rewrite Nat.add_succ_r.
Qed.

Lemma digit_not_space c : is_ascii_digit c = true → is_space c = false.
Proof. by destruct c as [[] [] [] [] [] [] [] []]. Qed.

Lemma ascii_digit_is_digit c : is_ascii_digit c = true → is_digit c = true.
Proof. intros Hc. unfold is_digit. by rewrite Hc. Qed.

Lemma is_digit_not_int_space c : is_digit c = true → is_int_space c = false.
Proof. by destruct c as [[] [] [] [] [] [] [] []]. Qed.

Lemma is_digit_not_underscore c : is_digit c = true → Ascii.eqb c "_" = false.
Proof. by destruct c as [[] [] [] [] [] [] [] []]. Qed.

(** [int] on a text whose first character is a digit for [str.isdigit]:
    no white space and no sign is skipped. *)
Lemma py_int_head c s :
  is_digit c = true →
  py_int (String c s)
  = match int_scan 0 0 false (String c s) with
    | None => Raise (invalid_literal (String c s))
    | Some (digits, n, rest) =>
        if (int_max_str_digits <? digits)%nat
        then Raise (too_many_digits digits)
        else if (digits =? 0)%nat then Raise (invalid_literal (String c s))
        else if str_forallb is_int_space rest then Ok n
        else Raise (invalid_literal (String c s))
    end.
Proof.
  intros Hc. unfold py_int.
  assert (lstrip is_int_space (String c s) = String c s) as ->.
  { cbn [lstrip]. by rewrite (is_digit_not_int_space _ Hc). }
  assert ((match String c s with
           | String "-" t' => (true, t')
           | String "+" t' => (false, t')
           | _ => (false, String c s)
           end) = (false, String c s)) as ->.
  { destruct c as [[] [] [] [] [] [] [] []]; done. }
  assert (startswith (String c s) "_" = false) as ->.
  { cbn [startswith]. by rewrite (is_digit_not_underscore _ Hc). }
  done.
Qed.

(** [int] on a non-empty string of decimal digits: its value, up to the
    limit of the interpreter on the number of digits. *)
Lemma py_int_decimal s :
  s ≠ "" → str_forallb is_ascii_digit s = true →
  py_int s = if (int_max_str_digits <? String.length s)%nat
             then Raise (too_many_digits (String.length s))
             else Ok (decimal_value s).
Proof.
  intros Hne Hd. destruct s as [|c s]; [done|].
  rewrite py_int_head.
  2:{ cbn [str_forallb] in Hd. apply andb_prop in Hd as [Hc _].
      by apply ascii_digit_is_digit. }
  rewrite (int_scan_decimal _ 0 0 Hd), Nat.add_0_l.
  destruct (int_max_str_digits <? _)%nat; [done|].
  cbn [String.length Nat.eqb str_forallb]. done.
Qed.

Lemma ascii_digits_isdigit s :
  s ≠ "" → str_forallb is_ascii_digit s = true → isdigit s = true.
Proof.
  intros Hne Hd. unfold isdigit.
  assert (str_forallb is_digit s = true) as ->.
  { clear Hne. induction s as [|c s IH]; [done|]. cbn [str_forallb] in Hd |- *.
    apply andb_prop in Hd as [Hc Hs]. rewrite (IH Hs).
    by rewrite (ascii_digit_is_digit _ Hc). }
  by destruct s.
Qed.

(** C3, amended: the number of results requested from the store by
    [query_main] is the default 5 when the line typed for it, stripped,
    is not a string of digits ([str.isdigit] is false: the empty string,
    or some character that is not a digit), and is the value of the line
    when, stripped, it is a non-empty string of at most 4300 decimal
    digits 0-9, zero included.  A string of more than 4300 decimal digits
    is over the limit of the interpreter for the conversion: [int] raises
    [ValueError], which leaves [query_main] before any call to the
    store. *)
Theorem query_main_top_k (w : World) (cname q ks : string)
    (rest : list string) :
  stdin w = cname :: q :: ks :: rest →
  (∀ w' name, collection_error env w' name = None) →
  (isdigit (strip_ws ks) = false →
   requested_k (store_log (query_main env w).2)
   = requested_k (store_log w) ++ [5])
  ∧ (strip_ws ks ≠ "" → str_forallb is_ascii_digit (strip_ws ks) = true →
     (String.length (strip_ws ks) ≤ int_max_str_digits)%nat →
     requested_k (store_log (query_main env w).2)
     = requested_k (store_log w) ++ [decimal_value (strip_ws ks)])
  ∧ (str_forallb is_ascii_digit (strip_ws ks) = true →
     (int_max_str_digits < String.length (strip_ws ks))%nat →
     (query_main env w).1
     = Raise (too_many_digits (String.length (strip_ws ks)))
     ∧ store_log (query_main env w).2 = store_log w).
Proof.
  intros Hin Herr. split_and!.
  - intros Hnd. apply (query_main_requests _ _ _ _ _ _ Hin Herr).
    intros w'. unfold coerce_top_k. by rewrite Hnd.
  - intros Hne Hd Hlen. apply (query_main_requests _ _ _ _ _ _ Hin Herr).
    intros w'. unfold coerce_top_k.
    rewrite (ascii_digits_isdigit _ Hne Hd). cbn [negb].
    rewrite (py_int_decimal _ Hne Hd).
    by rewrite (proj2 (Nat.ltb_ge _ _) Hlen).
  - intros Hd Hlen.
    assert (Hne : strip_ws ks ≠ "").
    { intros Heq. rewrite Heq in Hlen. cbn [String.length] in Hlen. lia. }
    destruct (query_main_coerce_raise w cname q ks rest
                (too_many_digits (String.length (strip_ws ks))) Hin)
      as (Hres & Hlog & _); [|done].
    intros w'. unfold coerce_top_k.
    rewrite (ascii_digits_isdigit _ Hne Hd). cbn [negb].
    rewrite (py_int_decimal _ Hne Hd).
    by rewrite (proj2 (Nat.ltb_lt _ _) Hlen).
Qed.

End QueryMain.

Lemma query_main_top_k_witness :
  requested_k (store_log (query_main (demo_env chat_up)
                            (world0 ["t"; "what?"; " 12 "])).2) = [12]
  ∧ requested_k (store_log (query_main (demo_env chat_up)
                              (world0 ["t"; "what?"; "-3"])).2) = [5].
Proof.
  destruct (query_main_top_k (demo_env chat_up)
              (world0 ["t"; "what?"; " 12 "]) "t" "what?" " 12 " []
              eq_refl (λ _ _, eq_refl)) as (_ & Hvalue & _).
  destruct (query_main_top_k (demo_env chat_up)
              (world0 ["t"; "what?"; "-3"]) "t" "what?" "-3" []
              eq_refl (λ _ _, eq_refl)) as (Hdefault & _).
  split.
  - apply Hvalue; [by vm_compute|reflexivity|].
    apply Nat.leb_le. by vm_compute.
  - apply Hdefault. reflexivity.
Defined.

(** C3, as stated, fails: the line ["0"] is not a positive integer, and
    [query_main] requests 0 results from the store, not the default 5. *)
Lemma query_main_zero_counterexample :
  coerce_top_k "0" (world0 []) = (Ok 0, world0 [])
  ∧ requested_k (store_log (query_main (demo_env chat_up)
                              (world0 ["t"; "what?"; "0"])).2) = [0].
Proof. split; by vm_compute. Qed.

Example query_main_superscript :
  (coerce_top_k (String (ascii_of_nat 178) "") (world0 [])).1
  = Raise (ValueError ("invalid literal for int() with base 10: '"
                       +:+ String (ascii_of_nat 178) "" +:+ "'")).
Proof. vm_compute. reflexivity. Qed.

Example query_main_digit_limit :
  (coerce_top_k (string_of_list_ascii (repeat "9"%char 4300)) (world0 [])).1
  = Ok (10 ^ 4300 - 1)
  ∧ (coerce_top_k (string_of_list_ascii (repeat "9"%char 4301)) (world0 [])).1
    = Raise (ValueError
               "Exceeds the limit (4300 digits) for integer string conversion: value has 4301 digits; use sys.set_int_max_str_digits() to increase the limit").
Proof. split; vm_compute; reflexivity. Qed.

(** * Further properties *)

(** ** Strings, continued *)

Lemma has_char_app c s t :
  has_char c (s +:+ t) = has_char c s || has_char c t.
Proof.
  unfold has_char. induction s as [|a s IH]; [done|].
  change (String a s +:+ t) with (String a (s +:+ t)).
  cbn [str_existsb]. by rewrite IH, orb_assoc.
Qed.

Lemma has_char_slash_cons c s :
  has_char "/" (String c s) = is_slash c || has_char "/" s.
Proof.
  unfold has_char, is_slash. cbn [str_existsb]. by rewrite Ascii.eqb_sym.
Qed.

(** No segment of a split contains the separator. *)
Lemma split_no_slash s :
  Forall (λ seg, has_char "/" seg = false) (split "/" s).
Proof.
  induction s as [|c s IH]; [by repeat constructor|].
  destruct (is_slash c) eqn:Hc.
  - rewrite (split_sep _ _ _ Hc). by constructor.
  - destruct (split_cons "/" s) as (h & t & Hs). rewrite Hs in IH.
    rewrite (split_other _ _ _ _ _ Hc Hs).
    apply Forall_cons in IH as [Hh Ht]. constructor; [|done].
    by rewrite has_char_slash_cons, Hc, Hh.
Qed.

Lemma replace_from_skip old new k c s :
  replace_from old new (S k) (String c s) = replace_from old new k s.
Proof. done. Qed.

Lemma replace_from_scan old new c s :
  replace_from old new 0 (String c s)
  = if startswith (String c s) old
    then new +:+ replace_from old new (String.length old - 1) s
    else String c (replace_from old new 0 s).
Proof. done. Qed.

(** Replacing by the empty string brings no new character. *)
Lemma replace_from_no_char c old skip s :
  has_char c s = false → has_char c (replace_from old "" skip s) = false.
Proof.
  unfold has_char. revert skip.
  induction s as [|a s IH]; intros skip Hs; [done|].
  cbn [str_existsb] in Hs. apply orb_false_elim in Hs as [Ha Hs].
  destruct skip as [|k]; [|rewrite replace_from_skip; by apply IH].
  rewrite replace_from_scan.
  destruct (startswith (String a s) old); [by apply IH|].
  cbn [str_existsb]. by rewrite Ha, IH.
Qed.

Lemma append_assoc (a b c : string) : (a +:+ b) +:+ c = a +:+ (b +:+ c).
Proof.
  induction a as [|x a IH]; [done|].
  change (String x ((a +:+ b) +:+ c) = String x (a +:+ (b +:+ c))).
  by rewrite IH.
Qed.

Lemma append_nil_r (a : string) : a +:+ "" = a.
Proof.
  induction a as [|x a IH]; [done|].
  change (String x (a +:+ "") = String x a). by rewrite IH.
Qed.

Lemma split_no_sep s :
  has_char "/" s = false → split "/" s = [s].
Proof.
  induction s as [|c s IH]; [done|].
  rewrite has_char_slash_cons. intros [Hc Hs]%orb_false_elim.
  by rewrite (split_other _ _ _ _ _ Hc (IH Hs)).
Qed.

Lemma split_app_slash a b :
  has_char "/" a = false →
  split "/" (a +:+ String "/" b) = a :: split "/" b.
Proof.
  induction a as [|c a IH]; [done|].
  rewrite has_char_slash_cons. intros [Hc Ha]%orb_false_elim.
  change (String c a +:+ String "/" b) with (String c (a +:+ String "/" b)).
  by rewrite (split_other _ _ _ _ _ Hc (IH Ha)).
Qed.

Lemma rstrip_no_char p s :
  str_existsb p s = false → rstrip p s = s.
Proof.
  induction s as [|c s IH]; [done|]. simpl str_existsb.
  intros [Hc Hs]%orb_false_elim.
  rewrite rstrip_keep by auto. by rewrite IH.
Qed.

Lemma rstrip_app_keep p a b :
  b ≠ "" → str_existsb p b = false → rstrip p (a +:+ b) = a +:+ b.
Proof.
  intros Hne Hb. induction a as [|c a IH]; [by apply rstrip_no_char|].
  change (String c a +:+ b) with (String c (a +:+ b)).
  rewrite rstrip_keep; [by rewrite IH|].
  right. rewrite IH. destruct a; [done|discriminate].
Qed.

(** In a text without a dot, [.git] does not occur: [replace] leaves the
    text as it is and goes on after it. *)
Lemma replace_no_dot s t :
  has_char "." s = false →
  replace ".git" "" (s +:+ t) = s +:+ replace ".git" "" t.
Proof.
  unfold replace, has_char. induction s as [|c s IH]; [done|].
  cbn [str_existsb]. intros [Hc Hs]%orb_false_elim.
  change (String c s +:+ t) with (String c (s +:+ t)).
  rewrite replace_from_scan.
  assert (startswith (String c (s +:+ t)) ".git" = false) as ->.
  { cbn [startswith]. by rewrite Ascii.eqb_sym, Hc. }
  by rewrite IH.
Qed.

(** ** [get_repo_info], continued *)

Section RepoInfoShape.

Variable urlparse : string → result ParseResult.

Lemma get_repo_info_repo_no_slash (url owner repo : string) :
  get_repo_info urlparse url = Ok (owner, repo) → has_char "/" repo = false.
Proof.
  unfold get_repo_info.
  destruct (urlparse url) as [parsed|e]; [|done].
  pose proof (split_no_slash (strip is_slash (pr_path parsed))) as Hall.
  case_bool_decide as Hlen; [done|].
  destruct (split "/" (strip is_slash (pr_path parsed)))
    as [|seg0 [|seg1 segs]]; [simpl in Hlen; lia..|].
  intros [= _ <-]. simpl.
  apply Forall_cons in Hall as [_ Hall].
  apply Forall_cons in Hall as [H1 _].
  by apply replace_from_no_char.
Qed.

(** X1: when [get_repo_info] returns, the owner is not empty, and neither
    the owner nor the repository name contains a slash. *)
Theorem get_repo_info_shape (url owner repo : string) :
  get_repo_info urlparse url = Ok (owner, repo) →
  owner ≠ "" ∧ has_char "/" owner = false ∧ has_char "/" repo = false.
Proof.
  intros Hinfo. split_and!; [| |by eapply get_repo_info_repo_no_slash].
  - unfold get_repo_info in Hinfo.
    destruct (urlparse url) as [parsed|e]; [|done].
    pose proof (strip_first (pr_path parsed)) as Hfirst.
    case_bool_decide as Hlen; [done|].
    destruct Hfirst as [Hempty|(c & h & t & Hc)].
    + rewrite Hempty in Hlen. simpl in Hlen. lia.
    + rewrite Hc in Hinfo. by injection Hinfo as <- _.
  - unfold get_repo_info in Hinfo.
    destruct (urlparse url) as [parsed|e]; [|done].
    pose proof (split_no_slash (strip is_slash (pr_path parsed))) as Hall.
    case_bool_decide as Hlen; [done|].
    destruct (split "/" (strip is_slash (pr_path parsed)))
      as [|seg0 segs]; [simpl in Hlen; lia|].
    injection Hinfo as <- _. by apply Forall_cons in Hall as [H0 _].
Qed.

(** X2: for a path [/owner/name] or [/owner/name.git], where [owner] and
    [name] are not empty and have no slash and [name] has no dot,
    [get_repo_info] returns the pair of [owner] and [name]. *)
Theorem get_repo_info_plain_name (url : string) (parsed : ParseResult)
    (owner name suffix : string) :
  urlparse url = Ok parsed →
  pr_path parsed = "/" +:+ owner +:+ "/" +:+ name +:+ suffix →
  suffix = "" ∨ suffix = ".git" →
  owner ≠ "" → has_char "/" owner = false →
  name ≠ "" → has_char "/" name = false → has_char "." name = false →
  get_repo_info urlparse url = Ok (owner, name).
Proof.
  intros Hp Hpath Hsuf Ho Hso Hn Hsn Hdn.
  assert (Hns : has_char "/" (name +:+ suffix) = false).
  { rewrite has_char_app, Hsn. by destruct Hsuf as [-> | ->]. }
  assert (Hstrip : strip is_slash (pr_path parsed)
                   = owner +:+ "/" +:+ name +:+ suffix).
  { rewrite Hpath. unfold strip.
    change ("/" +:+ owner +:+ "/" +:+ name +:+ suffix)
      with (String "/" (owner +:+ "/" +:+ name +:+ suffix)).
    rewrite lstrip_unfold. simpl is_slash. cbv iota.
    destruct owner as [|c owner]; [done|].
    rewrite has_char_slash_cons in Hso.
    apply orb_false_elim in Hso as [Hc Hso].
    change (String c owner +:+ "/" +:+ name +:+ suffix)
      with (String c (owner +:+ "/" +:+ name +:+ suffix)).
    rewrite lstrip_unfold, Hc.
    change (String c (owner +:+ "/" +:+ name +:+ suffix))
      with (String c owner +:+ ("/" +:+ (name +:+ suffix))).
    rewrite <-(append_assoc (String c owner) "/" (name +:+ suffix)).
    apply rstrip_app_keep; [by destruct name|done]. }
  assert (Hsplit : split "/" (strip is_slash (pr_path parsed))
                   = [owner; name +:+ suffix]).
  { rewrite Hstrip.
    change (owner +:+ "/" +:+ name +:+ suffix)
      with (owner +:+ String "/" (name +:+ suffix)).
    rewrite (split_app_slash _ _ Hso). by rewrite (split_no_sep _ Hns). }
  unfold get_repo_info. rewrite Hp, Hsplit. simpl.
  rewrite (replace_no_dot _ _ Hdn).
  destruct Hsuf as [-> | ->]; by rewrite append_nil_r.
Qed.

End RepoInfoShape.

Lemma get_repo_info_shape_witness :
  "IIEleven11" ≠ "" ∧ has_char "/" "IIEleven11" = false
  ∧ has_char "/" "Talk2Repo" = false.
Proof.
  apply (get_repo_info_shape py_urlparse
           "https://github.com/IIEleven11/Talk2Repo.git").
  reflexivity.
Defined.

Lemma get_repo_info_plain_name_witness :
  get_repo_info py_urlparse "https://github.com/IIEleven11/Talk2Repo.git"
  = Ok ("IIEleven11", "Talk2Repo").
Proof.
  by apply (get_repo_info_plain_name py_urlparse _
              {| pr_scheme := "https"; pr_netloc := "github.com";
                 pr_path := "/IIEleven11/Talk2Repo.git"; pr_params := "";
                 pr_query := ""; pr_fragment := "" |}
              "IIEleven11" "Talk2Repo" ".git");
    [reflexivity|reflexivity|right| | | | |].
Defined.

(** ** [flatten_contents], continued *)

(** X3: flattening goes through concatenation, and a directory flattens
    to what its children flatten to, whatever its path: the records do
    not depend on how the files are grouped in directories. *)
Theorem flatten_contents_app (t1 t2 : list TreeNode) (p : string)
    (sub : list TreeNode) :
  flatten_contents (t1 ++ t2) = flatten_contents t1 ++ flatten_contents t2
  ∧ flatten_contents (t1 ++ DirNode p sub :: t2)
    = flatten_contents (t1 ++ sub ++ t2).
Proof.
  unfold flatten_contents. rewrite !_flatten_preorder. simpl.
  rewrite !preorder_app, !omap_app. split; [done|].
  f_equal.
  change (preorder (DirNode p sub :: t2))
    with (preorder_node (DirNode p sub) ++ preorder t2).
  rewrite omap_app.
  change (omap file_record (preorder_node (DirNode p sub)))
    with (omap file_record (preorder sub)).
  done.
Qed.

(** A record of the flattening is the record of a file node of the tree. *)
Lemma flatten_contents_elem t d :
  d ∈ flatten_contents t → FileNode (path d) (content d) ∈ preorder t.
Proof.
  unfold flatten_contents. rewrite _flatten_preorder. simpl.
  intros (n & Hn & Hrec)%list_elem_of_omap.
  destruct n as [p c|p sub]; [|done]. by injection Hrec as <-.
Qed.

(** ** [get_contents], continued *)

Lemma all_files_nil P : all_files P [].
Proof. intros p c H. by apply elem_of_nil in H. Qed.

Lemma all_files_snoc_file P t p c :
  all_files P t → P p c → all_files P (t ++ [FileNode p c]).
Proof.
  intros Ht Hp p' c' Hin. rewrite preorder_app in Hin.
  apply elem_of_app in Hin as [Hin|Hin]; [by apply Ht|].
  unfold preorder in Hin. simpl in Hin.
  apply list_elem_of_singleton in Hin. by injection Hin as -> ->.
Qed.

Lemma all_files_snoc_dir P t p sub :
  all_files P t → all_files P sub → all_files P (t ++ [DirNode p sub]).
Proof.
  intros Ht Hsub p' c' Hin. rewrite preorder_app in Hin.
  apply elem_of_app in Hin as [Hin|Hin]; [by apply Ht|].
  unfold preorder in Hin. simpl in Hin. rewrite app_nil_r in Hin.
  apply elem_of_cons in Hin as [Hin|Hin]; [done|]. by apply Hsub.
Qed.

Lemma http_only_refl w : http_only w w.
Proof. repeat split. exists []. by rewrite app_nil_r. Qed.

Lemma http_only_trans w1 w2 w3 :
  http_only w1 w2 → http_only w2 w3 → http_only w1 w3.
Proof.
  intros (? & ? & ? & ? & ? & r1 & Hr1) (? & ? & ? & ? & ? & r2 & Hr2).
  repeat split; try congruence.
  exists (r1 ++ r2). by rewrite Hr2, Hr1, app_assoc.
Qed.

Section FetchMore.

Variable env : Env.

(** What [get_file_content] does: one request, an error for an error
    status, the body otherwise. *)
Lemma get_file_content_run url w :
  get_file_content env url w
  = match http_reply env w url [] with
    | Raise e => (Raise e, set_http_log (http_log w ++ [url]) w)
    | Ok response =>
        if (400 <=? status_code response) && (status_code response <? 600)
        then (Raise (LibraryError "HTTPError"
                       (str_of_Z (status_code response))),
              set_http_log (http_log w ++ [url]) w)
        else (Ok (resp_text response),
              set_http_log (http_log w ++ [url]) w)
    end.
Proof.
  unfold get_file_content, bind at 1, requests_get.
  destruct (http_reply env w url []) as [response|e]; [|done].
  unfold bind, raise_for_status.
  by destruct ((400 <=? status_code response)
               && (status_code response <? 600)).
Qed.

Lemma get_file_content_http_only url w :
  http_only w (get_file_content env url w).2.
Proof.
  rewrite get_file_content_run.
  assert (http_only w (set_http_log (http_log w ++ [url]) w))
    by (repeat split; by eexists).
  destruct (http_reply env w url []) as [response|e]; [|done].
  by destruct ((400 <=? status_code response)
               && (status_code response <? 600)).
Qed.

Lemma get_file_content_ok url w c w1 :
  get_file_content env url w = (Ok c, w1) → body_of_ok_reply env c.
Proof.
  rewrite get_file_content_run.
  destruct (http_reply env w url []) as [response|e] eqn:Hr; [|done].
  destruct ((400 <=? status_code response)
            && (status_code response <? 600)) eqn:Hs; [done|].
  intros [= <- _]. exists w, url, response. split_and!; [done| |done].
  apply andb_false_iff in Hs. lia.
Qed.

(** An invariant of the loop on the file nodes: what holds of every file
    downloaded holds of every file node of the tree returned. *)
Lemma get_contents_loop_all_files (P : string → string → Prop) rec :
  (∀ item w c w1,
     is_excluded (item_path item) = false →
     get_file_content env (item_download_url item) w = (Ok c, w1) →
     P (item_path item) c) →
  (∀ p w t w', rec p w = Some (Ok t, w') → all_files P t) →
  ∀ items contents w t w',
    all_files P contents →
    get_contents_loop env rec items contents w = Some (Ok t, w') →
    all_files P t.
Proof.
  intros Hfile Hrec items.
  induction items as [|item rest IH]; intros contents w t w' Hc Hrun.
  - simpl in Hrun. by injection Hrun as <- <-.
  - simpl in Hrun.
    destruct (String.eqb (item_type item) "file") eqn:Ht; simpl in Hrun.
    + destruct (is_excluded (item_path item)) eqn:Hex; [by eapply IH|].
      destruct (get_file_content env (item_download_url item) w)
        as [[file_content|e] w1] eqn:Hget; [|done].
      eapply IH; [|exact Hrun].
      apply all_files_snoc_file; [done|]. by eapply Hfile.
    + destruct (String.eqb (item_type item) "dir"); [|by eapply IH].
      destruct (rec (item_path item) w) as [[[dir_contents|e] w1]|] eqn:Hr;
        [|done..].
      eapply IH; [|exact Hrun].
      apply all_files_snoc_dir; [done|]. by eapply Hrec.
Qed.

Lemma get_contents_all_files (P : string → string → Prop) :
  (∀ item w c w1,
     is_excluded (item_path item) = false →
     get_file_content env (item_download_url item) w = (Ok c, w1) →
     P (item_path item) c) →
  ∀ fuel owner repo p w t w',
    get_contents env fuel owner repo p w = Some (Ok t, w') →
    all_files P t.
Proof.
  intros Hfile fuel.
  induction fuel as [|fuel IH]; intros owner repo p w t w' Hrun; [done|].
  rewrite get_contents_S in Hrun.
  match type of Hrun with
  | match ?m with _ => _ end = _ => destruct m as [[items|e] w1]; [|done]
  end.
  eapply get_contents_loop_all_files;
    [exact Hfile| |apply all_files_nil|exact Hrun].
  intros ????. apply IH.
Qed.

(** X4: in a tree returned by [get_contents], the content of every file
    node, at any depth, is the body of a reply of the host whose status
    is not an error status (400 to 599): no file holds an error page. *)
Theorem get_contents_bodies (fuel : nat) (owner repo p : string)
    (w : World) (tree : list TreeNode) (w' : World) (fp fc : string) :
  get_contents env fuel owner repo p w = Some (Ok tree, w') →
  FileNode fp fc ∈ preorder tree →
  body_of_ok_reply env fc.
Proof.
  intros Hrun Hin.
  eapply (get_contents_all_files (λ _ c, body_of_ok_reply env c));
    [|exact Hrun|exact Hin].
  intros item w0 c w1 _ Hget. by eapply get_file_content_ok.
Qed.

(** X5: the documents that the ingestion receives from [get_contents]
    and [flatten_contents] are files of the tree whose paths end with no
    extension of the denylist. *)
Theorem fetched_documents_allowed (fuel : nat) (owner repo p : string)
    (w : World) (tree : list TreeNode) (w' : World) (d : FlatDocument)
    (ext : string) :
  get_contents env fuel owner repo p w = Some (Ok tree, w') →
  d ∈ flatten_contents tree →
  ext ∈ excluded_extensions →
  FileNode (path d) (content d) ∈ preorder tree
  ∧ endswith (path d) ext = false.
Proof.
  intros Hrun Hd Hext.
  pose proof (flatten_contents_elem _ _ Hd) as Hin.
  split; [done|].
  eapply is_excluded_false; [|done].
  by eapply (get_contents_clean _ _ _ _ _ _ _ _ Hrun).
Qed.

(** The loop keeps, in order, the entries that give a node. *)
Lemma get_contents_loop_entries rec items contents w t w' :
  get_contents_loop env rec items contents w = Some (Ok t, w') →
  map top_entry t
  = map top_entry contents
    ++ map (λ item, (item_type item, item_path item)) (filter is_kept items).
Proof.
  revert contents w.
  induction items as [|item rest IH]; intros contents w Hrun.
  - simpl in Hrun. injection Hrun as <- <-. by rewrite app_nil_r.
  - simpl in Hrun.
    destruct (String.eqb (item_type item) "file") eqn:Ht; simpl in Hrun.
    + destruct (is_excluded (item_path item)) eqn:Hex.
      * rewrite filter_cons_False
          by (unfold is_kept; rewrite Ht, Hex; simpl; tauto).
        by eapply IH.
      * rewrite filter_cons_True
          by (unfold is_kept; rewrite Ht, Hex; simpl; tauto).
        destruct (get_file_content env (item_download_url item) w)
          as [[file_content|e] w1]; [|done].
        apply String.eqb_eq in Ht.
        rewrite (IH _ _ Hrun), map_app. simpl.
        by rewrite Ht, <-app_assoc.
    + destruct (String.eqb (item_type item) "dir") eqn:Hd.
      * rewrite filter_cons_True
          by (unfold is_kept; rewrite Ht, Hd; simpl; tauto).
        destruct (rec (item_path item) w) as [[[dir_contents|e] w1]|];
          [|done..].
        apply String.eqb_eq in Hd.
        rewrite (IH _ _ Hrun), map_app. simpl.
        by rewrite Hd, <-app_assoc.
      * rewrite filter_cons_False
          by (unfold is_kept; rewrite Ht, Hd; simpl; tauto).
        by eapply IH.
Qed.

(** X6: when the listing of a directory is answered with a list of
    entries, the top level of the tree returned by [get_contents] has, in
    the order of the listing, one node for each entry that is a file not
    excluded or a directory, of the same kind and path; the other entries
    (excluded files, entries of another type) give nothing. *)
Theorem get_contents_entries (fuel : nat) (owner repo p : string)
    (w : World) (response : Response) (items : list Item)
    (tree : list TreeNode) (w' : World) :
  http_reply env w
    ("https://api.github.com/repos/" +:+ owner +:+ "/" +:+ repo
     +:+ "/contents/" +:+ p) [("ref", "main")] = Ok response →
  resp_json response = Ok (JList items) →
  get_contents env (S fuel) owner repo p w = Some (Ok tree, w') →
  map top_entry tree
  = map (λ item, (item_type item, item_path item)) (filter is_kept items).
Proof.
  intros Hreply Hjson Hrun. rewrite get_contents_S in Hrun.
  unfold bind at 1, requests_get in Hrun. rewrite Hreply in Hrun.
  unfold bind at 1, raise_for_status in Hrun.
  destruct ((400 <=? status_code response) && (status_code response <? 600));
    [done|].
  unfold ret at 1, bind, response_json in Hrun. rewrite Hjson in Hrun.
  simpl in Hrun. by apply get_contents_loop_entries in Hrun.
Qed.

(** X7: when the listing is answered with an error status (400 to 599),
    [get_contents] raises [HTTPError] with that status after this single
    request: nothing is downloaded and no tree is returned. *)
Theorem get_contents_listing_error (fuel : nat) (owner repo p : string)
    (w : World) (response : Response) :
  http_reply env w
    ("https://api.github.com/repos/" +:+ owner +:+ "/" +:+ repo
     +:+ "/contents/" +:+ p) [("ref", "main")] = Ok response →
  400 ≤ status_code response < 600 →
  get_contents env (S fuel) owner repo p w
  = Some (Raise (LibraryError "HTTPError" (str_of_Z (status_code response))),
          set_http_log
            (http_log w ++ ["https://api.github.com/repos/" +:+ owner +:+ "/"
                            +:+ repo +:+ "/contents/" +:+ p]) w).
Proof.
  intros Hreply Hstatus. rewrite get_contents_S.
  unfold bind at 1, requests_get. rewrite Hreply.
  unfold bind at 1, raise_for_status.
  assert ((400 <=? status_code response) && (status_code response <? 600)
          = true) as ->; [|done].
  apply andb_true_iff. split; [apply Z.leb_le|apply Z.ltb_lt]; lia.
Qed.

Lemma get_contents_loop_http_only rec :
  (∀ p w r w', rec p w = Some (r, w') → http_only w w') →
  ∀ items contents w r w',
    get_contents_loop env rec items contents w = Some (r, w') →
    http_only w w'.
Proof.
  intros Hrec items.
  induction items as [|item rest IH]; intros contents w r w' Hrun.
  - simpl in Hrun. injection Hrun as <- <-. apply http_only_refl.
  - simpl in Hrun.
    destruct (String.eqb (item_type item) "file" && is_excluded (item_path item));
      [by eapply IH|].
    destruct (String.eqb (item_type item) "file").
    { pose proof (get_file_content_http_only (item_download_url item) w) as Hf.
      destruct (get_file_content env (item_download_url item) w)
        as [[file_content|e] w1]; simpl in Hf.
      - eapply http_only_trans; [exact Hf|by eapply IH].
      - by injection Hrun as <- <-. }
    destruct (String.eqb (item_type item) "dir"); [|by eapply IH].
    destruct (rec (item_path item) w) as [[[dir_contents|e] w1]|] eqn:Hr;
      [| |done].
    + eapply http_only_trans; [by eapply Hrec|by eapply IH].
    + injection Hrun as <- <-. by eapply Hrec.
Qed.

Lemma get_contents_frame (fuel : nat) (owner repo p : string)
    (w : World) (r : result (list TreeNode)) (w' : World) :
  get_contents env fuel owner repo p w = Some (r, w') → http_only w w'.
Proof.
  revert owner repo p w r w'.
  induction fuel as [|fuel IH]; intros owner repo p w r w' Hrun; [done|].
  rewrite get_contents_S in Hrun.
  assert (Hhead : ∀ res w1,
    (response <- requests_get env
                   ("https://api.github.com/repos/" +:+ owner +:+ "/"
                    +:+ repo +:+ "/contents/" +:+ p) [("ref", "main")] ;;
     raise_for_status response ;;
     items <- response_json response ;;
     ret items) w = (res, w1) → http_only w w1).
  { intros res w1. unfold bind at 1, requests_get.
    assert (Hlog : ∀ u, http_only w (set_http_log (http_log w ++ [u]) w))
      by (intros u; repeat split; by eexists).
    destruct (http_reply env w _ _) as [response|e]; [|by intros [= _ <-]].
    unfold bind at 1, raise_for_status.
    destruct ((400 <=? status_code response)
              && (status_code response <? 600)); [by intros [= _ <-]|].
    unfold ret at 1, bind, response_json.
    destruct (resp_json response); by intros [= _ <-]. }
  match type of Hrun with
  | match ?m with _ => _ end = _ =>
      specialize (Hhead (m.1) (m.2)); destruct m as [[items|e] w1]
  end; simpl in Hhead; specialize (Hhead eq_refl).
  - eapply http_only_trans; [exact Hhead|].
    eapply get_contents_loop_http_only; [|exact Hrun].
    intros ????. apply IH.
  - by injection Hrun as <- <-.
Qed.

(** X8: whatever its outcome, [get_contents] only makes HTTP requests:
    the requests logged before are still there, in order, followed by
    the request of the listing and then the others; the terminal, the
    LLM endpoint and the vector store are left as they were. *)
Theorem get_contents_http_only (fuel : nat) (owner repo p : string)
    (w : World) (r : result (list TreeNode)) (w' : World) :
  get_contents env fuel owner repo p w = Some (r, w') →
  http_only w w'
  ∧ ∃ requests,
      http_log w'
      = http_log w
        ++ ("https://api.github.com/repos/" +:+ owner +:+ "/" +:+ repo
            +:+ "/contents/" +:+ p) :: requests.
Proof.
  intros Hrun. split; [by eapply get_contents_frame|].
  destruct fuel as [|fuel]; [done|]. rewrite get_contents_S in Hrun.
  unfold bind at 1, requests_get in Hrun.
  set (url := "https://api.github.com/repos/" +:+ owner +:+ "/" +:+ repo
              +:+ "/contents/" +:+ p) in *.
  set (w1 := set_http_log (http_log w ++ [url]) w) in *.
  assert (Hafter : ∀ w2, http_only w1 w2 →
            ∃ requests, http_log w2 = http_log w ++ url :: requests).
  { intros w2 (_ & _ & _ & _ & _ & reqs & Hlog). exists reqs.
    rewrite Hlog. simpl. by rewrite <-app_assoc. }
  destruct (http_reply env w url [("ref", "main")]) as [response|e];
    [|injection Hrun as _ <-; apply Hafter, http_only_refl].
  unfold bind at 1, raise_for_status in Hrun.
  destruct ((400 <=? status_code response) && (status_code response <? 600));
    [injection Hrun as _ <-; apply Hafter, http_only_refl|].
  unfold ret at 1, bind, response_json in Hrun.
  destruct (resp_json response) as [items|e];
    [|injection Hrun as _ <-; apply Hafter, http_only_refl].
  simpl in Hrun. apply Hafter.
  eapply get_contents_loop_http_only; [|exact Hrun].
  intros ????. apply get_contents_frame.
Qed.

End FetchMore.

Lemma get_contents_bodies_witness : body_of_ok_reply (demo_env chat_up) "y=2".
Proof.
  apply (get_contents_bodies (demo_env chat_up) 2 "o" "r" "" (world0 [])
           [FileNode "a.py" "x=1"; DirNode "c" [FileNode "c/d.py" "y=2"]]
           (set_http_log
              ["https://api.github.com/repos/o/r/contents/";
               "https://raw.example/a.py";
               "https://api.github.com/repos/o/r/contents/c";
               "https://raw.example/c/d.py"] (world0 []))
           "c/d.py" "y=2"); [reflexivity|].
  unfold preorder. simpl. set_solver.
Defined.

Lemma fetched_documents_allowed_witness :
  FileNode "c/d.py" "y=2"
  ∈ preorder [FileNode "a.py" "x=1"; DirNode "c" [FileNode "c/d.py" "y=2"]]
  ∧ endswith "c/d.py" ".png" = false.
Proof.
  apply (fetched_documents_allowed (demo_env chat_up) 2 "o" "r" ""
           (world0 [])
           [FileNode "a.py" "x=1"; DirNode "c" [FileNode "c/d.py" "y=2"]]
           (set_http_log
              ["https://api.github.com/repos/o/r/contents/";
               "https://raw.example/a.py";
               "https://api.github.com/repos/o/r/contents/c";
               "https://raw.example/c/d.py"] (world0 []))
           {| path := "c/d.py"; content := "y=2" |} ".png");
    [reflexivity| |].
  - unfold flatten_contents. simpl. set_solver.
  - unfold excluded_extensions. set_solver.
Defined.

Lemma get_contents_entries_witness :
  map top_entry [FileNode "a.py" "x=1"; DirNode "c" [FileNode "c/d.py" "y=2"]]
  = map (λ item, (item_type item, item_path item)) (filter is_kept demo_root).
Proof.
  by apply (get_contents_entries (demo_env chat_up) 1 "o" "r" "" (world0 [])
              (listing_response demo_root) demo_root _
              (set_http_log
                 ["https://api.github.com/repos/o/r/contents/";
                  "https://raw.example/a.py";
                  "https://api.github.com/repos/o/r/contents/c";
                  "https://raw.example/c/d.py"] (world0 []))).
Defined.

Lemma get_contents_listing_error_witness :
  get_contents (demo_env chat_up) 1 "x" "y" "" (world0 [])
  = Some (Raise (LibraryError "HTTPError" "404"),
          set_http_log ["https://api.github.com/repos/x/y/contents/"]
            (world0 [])).
Proof.
  apply (get_contents_listing_error (demo_env chat_up) 0 "x" "y" ""
           (world0 [])
           {| status_code := 404;
              resp_json := Raise (LibraryError "JSONDecodeError"
                                    "Expecting value");
              resp_text := "Not Found" |});
    [reflexivity|simpl; lia].
Defined.

Lemma get_contents_http_only_witness :
  http_only (world0 [])
    (set_http_log ["https://api.github.com/repos/x/y/contents/"] (world0 [])).
Proof.
  by apply (proj1 (get_contents_http_only (demo_env chat_up) 1 "x" "y" ""
                     (world0 []) (Raise (LibraryError "HTTPError" "404"))
                     _ eq_refl)).
Defined.

(** ** [ingest_into_vector_db], continued *)

Lemma batch_of_files (files : list FlatDocument) :
  zip_with (λ i dm, {| sd_id := i; sd_document := dm.1; sd_metadata := dm.2 |})
    (map path files)
    (zip (map content files)
         (map (λ file, ({[ "path" := path file ]} : gmap string string)) files))
  = map stored_doc_of files.
Proof. induction files as [|f files IH]; [done|]. simpl. by rewrite IH. Qed.

Section IngestMore.

Variable env : Env.

(** X9: when the collection is obtained and the store accepts the batch,
    [ingest_into_vector_db] returns, the collection becomes what the
    store made of its former documents and of one document for each file
    (id and metadata from the path, text from the content), the other
    collections are untouched, and the number of files is reported. *)
Theorem ingest_success (files : list FlatDocument) (name : string)
    (w : World) (docs : list StoredDoc) :
  collection_error env w name = None →
  add_reply env (default [] (db w !! name)) (map stored_doc_of files)
  = Ok docs →
  (ingest_into_vector_db env files name w).1 = Ok tt
  ∧ db (ingest_into_vector_db env files name w).2 = <[name := docs]> (db w)
  ∧ stdout (ingest_into_vector_db env files name w).2
    = stdout w ++ ["Ingested " +:+ str_of_Z (Z.of_nat (length files))
                   +:+ " documents into the vector database."].
Proof.
  intros Herr Hadd.
  remember (ingest_into_vector_db env files name w) as run eqn:Hrun.
  unfold ingest_into_vector_db, bind, get_or_create_collection,
    collection_add in Hrun.
  rewrite Herr in Hrun. simpl in Hrun.
  destruct (db w !! name) as [existing|] eqn:Hdb; simpl in Hadd, Hrun.
  - rewrite Hdb, batch_of_files in Hrun. simpl in Hrun.
    rewrite Hadd in Hrun. by subst run.
  - rewrite lookup_insert_eq, batch_of_files in Hrun. simpl in Hrun.
    rewrite Hadd in Hrun. subst run. simpl. by rewrite insert_insert_eq.
Qed.

(** X10: when the collection cannot be obtained, or the store rejects the
    batch, [ingest_into_vector_db] raises the exception of the store,
    reports nothing, and the documents of every collection are what they
    were. *)
Theorem ingest_failure (files : list FlatDocument) (name : string)
    (w : World) (e : Exc) :
  collection_error env w name = Some e
  ∨ (collection_error env w name = None
     ∧ add_reply env (default [] (db w !! name)) (map stored_doc_of files)
       = Raise e) →
  (ingest_into_vector_db env files name w).1 = Raise e
  ∧ stdout (ingest_into_vector_db env files name w).2 = stdout w
  ∧ ∀ n, default [] (db (ingest_into_vector_db env files name w).2 !! n)
         = default [] (db w !! n).
Proof.
  intros Hfail.
  remember (ingest_into_vector_db env files name w) as run eqn:Hrun.
  unfold ingest_into_vector_db, bind, get_or_create_collection,
    collection_add in Hrun.
  destruct Hfail as [Herr|[Herr Hadd]]; rewrite Herr in Hrun; simpl in Hrun;
    [by subst run|].
  destruct (db w !! name) as [existing|] eqn:Hdb; simpl in Hadd, Hrun.
  - rewrite Hdb, batch_of_files in Hrun. simpl in Hrun.
    rewrite Hadd in Hrun. by subst run.
  - rewrite lookup_insert_eq, batch_of_files in Hrun. simpl in Hrun.
    rewrite Hadd in Hrun. subst run. simpl.
    split_and!; [done..|]. intros n.
    destruct (decide (name = n)) as [<-|Hne].
    + by rewrite lookup_insert_eq, Hdb.
    + by rewrite lookup_insert_ne.
Qed.

(** ** [query_vector_db], continued *)

(** X11: a query changes no document of any collection, but it creates
    the collection asked for when it is obtained and did not exist; it
    prints nothing and calls no LLM. *)
Theorem query_vector_db_store_effect (query name : string) (k : Z)
    (w : World) :
  (∀ n, default [] (db (query_vector_db env query name k w).2 !! n)
        = default [] (db w !! n))
  ∧ (collection_error env w name = None →
     is_Some (db (query_vector_db env query name k w).2 !! name))
  ∧ stdout (query_vector_db env query name k w).2 = stdout w
  ∧ llm_log (query_vector_db env query name k w).2 = llm_log w.
Proof.
  remember (query_vector_db env query name k w) as run eqn:Hrun.
  unfold query_vector_db, bind, get_or_create_collection,
    collection_query in Hrun.
  destruct (collection_error env w name) as [e|]; simpl in Hrun;
    [by subst run|].
  destruct (db w !! name) as [existing|] eqn:Hdb; simpl in Hrun.
  - destruct (k <=? 0); [|destruct (query_reply env _ _ _)];
      subst run; simpl; by rewrite Hdb.
  - assert (Hkeep : ∀ n, default [] (<[name := []]> (db w) !! n)
                         = default [] (db w !! n)).
    { intros n. destruct (decide (name = n)) as [<-|Hne].
      - by rewrite lookup_insert_eq, Hdb.
      - by rewrite lookup_insert_ne. }
    destruct (k <=? 0); [|destruct (query_reply env _ _ _)];
      subst run; simpl;
      (split_and!; [done| |done..]); intros _; by rewrite lookup_insert_eq.
Qed.

End IngestMore.

Lemma ingest_success_witness :
  (ingest_into_vector_db (demo_env chat_up)
     [ {| path := "a.py"; content := "x=1" |} ] "t" (world0 [])).1 = Ok tt
  ∧ db (ingest_into_vector_db (demo_env chat_up)
          [ {| path := "a.py"; content := "x=1" |} ] "t" (world0 [])).2
    = <[ "t" := [stored_doc_of {| path := "a.py"; content := "x=1" |}] ]> ∅.
Proof.
  destruct (ingest_success (demo_env chat_up)
              [ {| path := "a.py"; content := "x=1" |} ] "t" (world0 [])
              [stored_doc_of {| path := "a.py"; content := "x=1" |}]
              eq_refl eq_refl) as (Hr & Hdb & _).
  by split.
Defined.

(** ** Stripping *)

Lemma lstrip_lstrip p s : lstrip p (lstrip p s) = lstrip p s.
Proof.
  induction s as [|c s IH]; [done|]. rewrite lstrip_unfold.
  destruct (p c) eqn:Hc; [done|]. by rewrite lstrip_unfold, Hc.
Qed.

Lemma rstrip_rstrip p s : rstrip p (rstrip p s) = rstrip p s.
Proof.
  induction s as [|c s IH]; [done|].
  destruct (p c) eqn:Hc.
  - destruct (decide (rstrip p s = "")) as [He|Hne].
    + by rewrite (rstrip_drop _ _ _ Hc He).
    + rewrite (rstrip_keep p c s) by auto.
      rewrite rstrip_keep; [by rewrite IH|]. right. by rewrite IH.
  - rewrite (rstrip_keep p c s) by auto.
    rewrite rstrip_keep by auto. by rewrite IH.
Qed.

Lemma lstrip_rstrip_lstrip p s :
  lstrip p (rstrip p (lstrip p s)) = rstrip p (lstrip p s).
Proof.
  induction s as [|c s IH]; [done|]. rewrite lstrip_unfold.
  destruct (p c) eqn:Hc; [done|].
  rewrite rstrip_keep by auto. by rewrite lstrip_unfold, Hc.
Qed.

(** Stripping twice is stripping once. *)
Lemma strip_strip p s : strip p (strip p s) = strip p s.
Proof.
  unfold strip. by rewrite lstrip_rstrip_lstrip, rstrip_rstrip.
Qed.

(** ** [truncate_to_token_limit], continued *)

(** X23: for a negative limit, a text whose tokens are obtained is never
    returned as it is: the slice counts from the end, the last
    [- max_tokens] tokens are dropped and the others decoded; when there
    are no more than [- max_tokens] tokens, the result is the decoding of
    no token. *)
Theorem truncate_to_token_limit_negative (env : Env) (text : string)
    (max_tokens : Z) (enc : string) (tok : Tokenizer) (tokens : list Z) :
  encoding_for_model env enc = Ok tok →
  encode tok text = Ok tokens →
  max_tokens < 0 →
  let kept := take (length tokens - Z.to_nat (- max_tokens)) tokens in
  truncate_to_token_limit env text max_tokens enc = Ok (decode tok kept)
  ∧ length kept = (length tokens - Z.to_nat (- max_tokens))%nat
  ∧ ((length tokens ≤ Z.to_nat (- max_tokens))%nat →
     truncate_to_token_limit env text max_tokens enc = Ok (decode tok [])).
Proof.
  intros Htok Henc Hneg kept. subst kept.
  rewrite (truncate_unfold _ _ _ _ _ _ Htok Henc).
  rewrite bool_decide_eq_false_2 by lia. unfold slice_to.
  rewrite (proj2 (Z.leb_gt 0 max_tokens)) by lia.
  split_and!; [done|rewrite length_take; lia|].
  intros Hfew.
  by replace (length tokens - Z.to_nat (- max_tokens))%nat with 0%nat by lia.
Qed.

Lemma truncate_to_token_limit_negative_witness :
  truncate_to_token_limit (demo_env chat_up) "abc" (-1) "gpt-4" = Ok "ab"
  ∧ truncate_to_token_limit (demo_env chat_up) "abc" (-5) "gpt-4" = Ok "".
Proof.
  destruct (truncate_to_token_limit_negative (demo_env chat_up) "abc" (-1)
              "gpt-4" char_tokenizer (char_encode "abc") eq_refl eq_refl)
    as (Hone & _); [lia|].
  destruct (truncate_to_token_limit_negative (demo_env chat_up) "abc" (-5)
              "gpt-4" char_tokenizer (char_encode "abc") eq_refl eq_refl)
    as (_ & _ & Hfive); [lia|].
  split; [exact Hone|]. apply Hfive. simpl. lia.
Defined.

(** ** [summarize_text] and [generate_gpt4_response], continued *)

Section AnswerMore.

Variable env : Env.

(** The requests of the summaries: one for each document, in order, up
    to the first that fails. *)
Lemma summaries_requests docs w :
  match map_M (λ doc, summarize_text env doc 200) docs w with
  | (Ok sums, w1) =>
      llm_log w1 = llm_log w ++ map (λ d, summary_request d 200) docs
      ∧ stdout w1 = stdout w
      ∧ Forall (λ sum, strip_ws sum = sum) sums
  | (Raise e, w1) =>
      ∃ j, (j < length docs)%nat
           ∧ llm_log w1
             = llm_log w ++ map (λ d, summary_request d 200) (take (S j) docs)
  end.
Proof.
  revert w. induction docs as [|doc docs IH]; intros w.
  - simpl. by rewrite app_nil_r.
  - simpl. unfold bind at 1. unfold summarize_text at 1.
    unfold bind at 1, chat_completion.
    destruct (chat_reply env w (summary_request doc 200)) as [text|e].
    + unfold ret at 1. unfold bind at 1.
      specialize (IH (set_llm_log (llm_log w ++ [summary_request doc 200]) w)).
      destruct (map_M _ docs _) as [[sums|e] w1]; simpl in IH |- *.
      * destruct IH as (Hlog & Hout & Hall). split_and!.
        -- by rewrite Hlog, <-app_assoc.
        -- done.
        -- constructor; [apply strip_strip|done].
      * destruct IH as (j & Hj & Hlog). exists (S j). split; [lia|].
        by rewrite Hlog, <-app_assoc.
    + exists 0%nat. split; [simpl; lia|]. by rewrite take_0.
Qed.

(** A sequence of calls that fails has a first call that fails, after the
    calls before it succeeded. *)
Lemma map_M_raise_inv {A B} (f : A → M B) xs w e w1 :
  map_M f xs w = (Raise e, w1) →
  ∃ j x pre wj,
    xs !! j = Some x
    ∧ map_M f (take j xs) w = (Ok pre, wj)
    ∧ f x wj = (Raise e, w1).
Proof.
  revert w. induction xs as [|a xs IH]; intros w Hrun; [done|].
  simpl in Hrun. unfold bind at 1 in Hrun.
  destruct (f a w) as [[y|e'] w'] eqn:Ha.
  - unfold bind at 1 in Hrun.
    destruct (map_M f xs w') as [[ys|e''] w''] eqn:Hm; [done|].
    injection Hrun as -> ->.
    destruct (IH _ Hm) as (j & x & pre & wj & Hx & Hpre & Hf).
    exists (S j), x, (y :: pre), wj. split_and!; [done| |done].
    simpl. unfold bind. by rewrite Ha, Hpre.
  - injection Hrun as -> ->. by exists 0%nat, a, [], w.
Qed.

Lemma summarize_text_raise_inv doc max_tokens w e w1 :
  summarize_text env doc max_tokens w = (Raise e, w1) →
  chat_reply env w (summary_request doc max_tokens) = Raise e
  ∧ w1 = set_llm_log (llm_log w ++ [summary_request doc max_tokens]) w.
Proof.
  unfold summarize_text, bind, chat_completion.
  destruct (chat_reply env w _) as [text|e']; [done|]. by intros [= -> <-].
Qed.

(** X12: [generate_gpt4_response] sends the summary requests one after
    the other in the order of the documents, and has one of three
    outcomes.  All summaries are answered and the tokenizer cuts their
    text: one final request follows, made of the text cut, and an answer
    is returned.  All summaries are answered and the tokenizer fails: no
    request follows the summaries and the exception of the tokenizer is
    raised.  The completion call of the summary of a document fails,
    after the summaries of the documents before it were made: no request
    follows it and the exception of that call is raised.  So there are
    never more requests than documents plus one. *)
Theorem generate_gpt4_response_requests (query : string)
    (context_docs : list string) (max_context_tokens : Z) (w : World) :
  ((∃ sums w1 context answer,
      map_M (λ doc, summarize_text env doc 200) context_docs w = (Ok sums, w1)
      ∧ truncate_to_token_limit env (join (nl +:+ nl) sums)
          max_context_tokens "gpt-4" = Ok context
      ∧ (generate_gpt4_response env query context_docs
           max_context_tokens w).1 = Ok answer
      ∧ llm_log (generate_gpt4_response env query context_docs
                   max_context_tokens w).2
        = llm_log w ++ map (λ d, summary_request d 200) context_docs
          ++ [answer_request (answer_prompt context query)])
   ∨ (∃ sums w1 e,
        map_M (λ doc, summarize_text env doc 200) context_docs w
        = (Ok sums, w1)
        ∧ truncate_to_token_limit env (join (nl +:+ nl) sums)
            max_context_tokens "gpt-4" = Raise e
        ∧ (generate_gpt4_response env query context_docs
             max_context_tokens w).1 = Raise e
        ∧ llm_log (generate_gpt4_response env query context_docs
                     max_context_tokens w).2
          = llm_log w ++ map (λ d, summary_request d 200) context_docs)
   ∨ (∃ j doc pre wj e,
        context_docs !! j = Some doc
        ∧ map_M (λ doc, summarize_text env doc 200) (take j context_docs) w
          = (Ok pre, wj)
        ∧ chat_reply env wj (summary_request doc 200) = Raise e
        ∧ (generate_gpt4_response env query context_docs
             max_context_tokens w).1 = Raise e
        ∧ llm_log (generate_gpt4_response env query context_docs
                     max_context_tokens w).2
          = llm_log w
            ++ map (λ d, summary_request d 200) (take (S j) context_docs)))
  ∧ (length (llm_log (generate_gpt4_response env query context_docs
                        max_context_tokens w).2)
     ≤ length (llm_log w) + length context_docs + 1)%nat.
Proof.
  rewrite generate_gpt4_response_unfold.
  pose proof (summaries_requests context_docs w) as Hsum.
  destruct (map_M _ context_docs w) as [[sums|e] w1] eqn:Hrun.
  - destruct Hsum as (Hlog & _ & _).
    destruct (truncate_to_token_limit _ _ _ _) as [context|e] eqn:Htr.
    + cbv zeta. split.
      * left. exists sums, w1, context.
        destruct (chat_reply env w1 _) as [text|e]; eexists; simpl;
          (split_and!; [done..|]); by rewrite Hlog, <-app_assoc.
      * destruct (chat_reply env w1 _) as [text|e]; simpl;
          rewrite Hlog, !length_app, length_map; simpl; lia.
    + split.
      * right. left. by exists sums, w1, e.
      * simpl. rewrite Hlog, length_app, length_map. lia.
  - destruct (map_M_raise_inv _ _ _ _ _ Hrun)
      as (j & doc & pre & wj & Hdoc & Hpre & Hf).
    apply summarize_text_raise_inv in Hf as [Hreply ->].
    pose proof (summaries_requests (take j context_docs) w) as Hpre_log.
    rewrite Hpre in Hpre_log. destruct Hpre_log as (Hlog & _ & _).
    assert (Hlog1 : llm_log (set_llm_log
                               (llm_log wj ++ [summary_request doc 200]) wj)
                    = llm_log w ++ map (λ d, summary_request d 200)
                                       (take (S j) context_docs)).
    { simpl. rewrite Hlog, <-app_assoc. f_equal.
      by rewrite (take_S_r _ _ _ Hdoc), map_app. }
    split.
    + right. right. by exists j, doc, pre, wj, e.
    + cbn [snd]. rewrite Hlog1, length_app, length_map, length_take.
      apply lookup_lt_Some in Hdoc. lia.
Qed.

Example tokenizer_failure_after_summaries :
  (generate_gpt4_response (no_tokenizer_env chat_up) "what?" ["x=1"; "y=2"]
     6000 (world0 [])).1 = Raise vocabulary_down
  ∧ llm_log (generate_gpt4_response (no_tokenizer_env chat_up) "what?"
               ["x=1"; "y=2"] 6000 (world0 [])).2
    = [summary_request "x=1" 200; summary_request "y=2" 200].
Proof. split; by vm_compute. Qed.

(** X13: a summary returned by [summarize_text] and an answer returned
    by [generate_gpt4_response] (the apology included) have no white
    space at either end: stripping them again changes nothing. *)
Theorem answers_are_stripped (query doc : string)
    (context_docs : list string) (max_tokens max_context_tokens : Z)
    (w : World) :
  (∀ summary, (summarize_text env doc max_tokens w).1 = Ok summary →
              strip_ws summary = summary)
  ∧ (∀ answer,
       (generate_gpt4_response env query context_docs max_context_tokens w).1
       = Ok answer →
       strip_ws answer = answer).
Proof.
  split.
  - intros summary. unfold summarize_text, bind, chat_completion.
    destruct (chat_reply env w _) as [text|e]; [|done].
    intros [= <-]. apply strip_strip.
  - intros answer. rewrite generate_gpt4_response_unfold.
    destruct (map_M _ context_docs w) as [[sums|e] w1]; [|done].
    destruct (truncate_to_token_limit _ _ _ _) as [context|e]; [|done].
    cbv zeta.
    destruct (chat_reply env w1 _) as [text|e]; intros [= <-];
      [apply strip_strip|reflexivity].
Qed.

End AnswerMore.

Lemma answers_are_stripped_witness :
  strip_ws "a summary" = "a summary" ∧ strip_ws "An answer." = "An answer.".
Proof.
  destruct (answers_are_stripped (demo_env chat_up) "what?" "x=1" ["x=1"]
              200 6000 (world0 [])) as [Hs Ha].
  split; [by apply Hs|by apply Ha].
Defined.

Lemma query_vector_db_store_effect_witness :
  is_Some (db (query_vector_db (demo_env chat_up) "what?" "t" 5
                 (world0 [])).2 !! "t").
Proof.
  by apply (query_vector_db_store_effect (demo_env chat_up) "what?" "t" 5
              (world0 [])).
Defined.

Lemma ingest_failure_witness :
  (ingest_into_vector_db
     {| http_reply := demo_http; chat_reply := chat_up;
        encoding_for_model := λ _, Ok char_tokenizer;
        collection_error := λ _ _, Some api_down;
        add_reply := demo_add; query_reply := demo_query |}
     [ {| path := "a.py"; content := "x=1" |} ] "t" (world0 [])).1
  = Raise api_down.
Proof.
  by apply (ingest_failure _ [ {| path := "a.py"; content := "x=1" |} ] "t"
              (world0 []) api_down); left.
Defined.

(** ** [query_main], continued *)

Lemma is_digit_not_space c : is_digit c = true → is_space c = false.
Proof. by destruct c as [[] [] [] [] [] [] [] []]. Qed.

Lemma is_digit_not_sign c :
  is_digit c = true →
  c ≠ "-"%char ∧ c ≠ "+"%char ∧ Ascii.eqb c "_" = false.
Proof. by destruct c as [[] [] [] [] [] [] [] []]. Qed.

Lemma isdigit_strip_ws s :
  str_forallb is_digit s = true → strip_ws s = s.
Proof.
  intros Hd. unfold strip_ws, strip.
  assert (Hl : lstrip is_space s = s).
  { destruct s as [|c s]; [done|]. cbn [str_forallb] in Hd.
    apply andb_prop in Hd as [Hc _].
    by rewrite lstrip_unfold, (is_digit_not_space _ Hc). }
  rewrite Hl. clear Hl.
  induction s as [|c s IH]; [done|].
  cbn [str_forallb] in Hd. apply andb_prop in Hd as [Hc Hs].
  rewrite rstrip_keep; [by rewrite IH|]. left. by apply is_digit_not_space.
Qed.




Section QueryMainMore.

Variable env : Env.

Lemma query_vector_db_store_effect_llm query name k w :
  llm_log (query_vector_db env query name k w).2 = llm_log w.
Proof.
  remember (query_vector_db env query name k w) as run eqn:Hrun.
  unfold query_vector_db, bind, get_or_create_collection,
    collection_query in Hrun.
  destruct (collection_error env w name); simpl in Hrun; [by subst run|].
  destruct (db w !! name); simpl in Hrun;
    (destruct (k <=? 0); [|destruct (query_reply env _ _ _)]); by subst run.
Qed.

(** X14: when fewer than three lines can be read, [query_main] raises
    [EOFError] after reading them all, having called neither the vector
    store nor the LLM. *)
Theorem query_main_eof (w : World) :
  (length (stdin w) < 3)%nat →
  (query_main env w).1 = Raise EOFError
  ∧ stdin (query_main env w).2 = []
  ∧ store_log (query_main env w).2 = store_log w
  ∧ llm_log (query_main env w).2 = llm_log w
  ∧ db (query_main env w).2 = db w.
Proof.
  intros Hlen.
  remember (query_main env w) as run eqn:Hrun.
  unfold query_main in Hrun.
  unfold bind at 1, input at 1 in Hrun. simpl in Hrun.
  destruct (stdin w) as [|l1 lines] eqn:Hin; [by subst run|].
  unfold bind at 1, input at 1 in Hrun. simpl in Hrun.
  destruct lines as [|l2 lines]; [by subst run|].
  unfold bind at 1, input at 1 in Hrun. simpl in Hrun.
  destruct lines as [|l3 lines]; [by subst run|].
  simpl in Hlen. lia.
Qed.


(** X22: when the vector store fails to answer the query, [query_main]
    raises the exception of the store before any summary or answer is
    asked of the LLM. *)
Theorem query_main_store_failure (w : World) (cname q ks : string)
    (rest : list string) (e : Exc) :
  stdin w = cname :: q :: ks :: rest →
  isdigit (strip_ws ks) = false →
  (∀ w' name, collection_error env w' name = None) →
  query_reply env (default [] (db w !! strip_ws cname)) [strip_ws q] 5
  = Raise e →
  (query_main env w).1 = Raise e ∧ llm_log (query_main env w).2 = llm_log w.
Proof.
  intros Hin Hd Herr Hq.
  remember (query_main env w) as run eqn:Hrun.
  unfold query_main in Hrun.
  unfold bind at 1, input at 1 in Hrun. simpl in Hrun. rewrite Hin in Hrun.
  unfold bind at 1, input at 1 in Hrun. simpl in Hrun.
  unfold bind at 1, input at 1 in Hrun. simpl in Hrun.
  unfold bind at 1, coerce_top_k in Hrun. rewrite Hd in Hrun.
  simpl in Hrun.
  unfold bind at 1, print at 1 in Hrun. simpl in Hrun.
  unfold bind at 1 in Hrun.
  match type of Hrun with
  | context [query_vector_db env ?a ?b ?c ?d] =>
      pose proof (query_vector_db_result env a b c d (Herr _ _)) as Hres;
      pose proof (query_vector_db_store_effect_llm a b c d) as Hllm;
      destruct (query_vector_db env a b c d) as [r1 w1]
  end.
  simpl in Hres, Hllm. rewrite Hq in Hres. subst r1. by subst run.
Qed.

(** X24: when the line typed for the number of documents is a string of
    decimal digits of value zero, the client of the vector store refuses
    the query: [query_main] raises its [TypeError] after the call, and
    asks nothing of the LLM. *)
Theorem query_main_zero_results (w : World) (cname q ks : string)
    (rest : list string) :
  stdin w = cname :: q :: ks :: rest →
  (∀ w' name, collection_error env w' name = None) →
  strip_ws ks ≠ "" →
  str_forallb is_ascii_digit (strip_ws ks) = true →
  (String.length (strip_ws ks) ≤ int_max_str_digits)%nat →
  decimal_value (strip_ws ks) = 0 →
  (query_main env w).1
  = Raise (LibraryError "TypeError"
             "Number of requested results 0, cannot be negative, or zero.")
  ∧ requested_k (store_log (query_main env w).2)
    = requested_k (store_log w) ++ [0]
  ∧ llm_log (query_main env w).2 = llm_log w.
Proof.
  intros Hin Herr Hne Hd Hlen Hzero.
  assert (Hk : ∀ w', coerce_top_k (strip_ws ks) w' = (Ok 0, w')).
  { intros w'. unfold coerce_top_k.
    rewrite (ascii_digits_isdigit _ Hne Hd). cbn [negb].
    rewrite (py_int_decimal _ Hne Hd), (proj2 (Nat.ltb_ge _ _) Hlen).
    by rewrite Hzero. }
  split_and!; [| by apply (query_main_requests env _ _ _ _ _ _ Hin Herr Hk) |];
    remember (query_main env w) as run eqn:Hrun;
    unfold query_main in Hrun;
    unfold bind at 1, input at 1 in Hrun; simpl in Hrun; rewrite Hin in Hrun;
    unfold bind at 1, input at 1 in Hrun; simpl in Hrun;
    unfold bind at 1, input at 1 in Hrun; simpl in Hrun;
    unfold bind at 1 in Hrun; rewrite Hk in Hrun;
    unfold bind at 1, print at 1 in Hrun; simpl in Hrun;
    unfold bind at 1 in Hrun;
    match type of Hrun with
    | context [query_vector_db env ?a ?b ?c ?d] =>
        pose proof (query_vector_db_result env a b c d (Herr _ _)) as Hres;
        pose proof (query_vector_db_store_effect_llm a b c d) as Hllm;
        destruct (query_vector_db env a b c d) as [r1 w1]
    end;
    simpl in Hres, Hllm; subst r1; by subst run.
Qed.

End QueryMainMore.

Lemma query_main_eof_witness :
  (query_main (demo_env chat_up) (world0 ["t"; "what?"])).1 = Raise EOFError.
Proof.
  apply (query_main_eof (demo_env chat_up) (world0 ["t"; "what?"])).
  simpl. lia.
Defined.

Lemma query_main_zero_results_witness :
  (query_main (demo_env chat_up) (world0 ["t"; "what?"; " 00 "])).1
  = Raise (LibraryError "TypeError"
             "Number of requested results 0, cannot be negative, or zero.").
Proof.
  apply (query_main_zero_results (demo_env chat_up)
           (world0 ["t"; "what?"; " 00 "]) "t" "what?" " 00 " []);
    [reflexivity|reflexivity|by vm_compute|reflexivity| |reflexivity].
  apply Nat.leb_le. by vm_compute.
Defined.

Lemma query_main_store_failure_witness :
  (query_main
     {| http_reply := demo_http; chat_reply := chat_up;
        encoding_for_model := λ _, Ok char_tokenizer;
        collection_error := λ _ _, None;
        add_reply := demo_add;
        query_reply := λ _ _ _, Raise api_down |}
     (world0 ["t"; "what?"; ""])).1 = Raise api_down.
Proof.
  by apply (query_main_store_failure _ (world0 ["t"; "what?"; ""])
              "t" "what?" "" [] api_down).
Defined.


(** ** [json.dump] *)

Lemma str_forallb_app p s t :
  str_forallb p (s +:+ t) = str_forallb p s && str_forallb p t.
Proof.
  induction s as [|c s IH]; [done|].
  change (String c s +:+ t) with (String c (s +:+ t)).
  cbn [str_forallb]. by rewrite IH, andb_assoc.
Qed.

Lemma json_escape_char_ascii c :
  str_forallb is_json_char (json_escape_char c) = true.
Proof. by destruct c as [[] [] [] [] [] [] [] []]. Qed.

Lemma json_string_ascii s : str_forallb is_json_char (json_string s) = true.
Proof.
  unfold json_string. rewrite !str_forallb_app.
  assert (str_forallb is_json_char (json_escape s) = true) as ->; [|done].
  induction s as [|c s IH]; [done|].
  cbn [json_escape]. by rewrite str_forallb_app, json_escape_char_ascii, IH.
Qed.

Lemma newline_indent_ascii level :
  str_forallb is_json_char (newline_indent level) = true.
Proof.
  induction level as [|l IH]; [done|].
  cbn [newline_indent]. by rewrite str_forallb_app, IH.
Qed.

Lemma join_ascii sep parts :
  str_forallb is_json_char sep = true →
  Forall (λ x, str_forallb is_json_char x = true) parts →
  str_forallb is_json_char (join sep parts) = true.
Proof.
  intros Hsep Hall. induction Hall as [|x parts Hx Hall IH]; [done|].
  destruct parts as [|y parts]; [done|].
  change (join sep (x :: y :: parts))
    with (x +:+ sep +:+ join sep (y :: parts)).
  by rewrite !str_forallb_app, Hx, Hsep, IH.
Qed.

Lemma json_array_ascii level elems :
  Forall (λ x, str_forallb is_json_char x = true) elems →
  str_forallb is_json_char (json_array level elems) = true.
Proof.
  intros Hall. destruct elems as [|x elems]; [done|].
  unfold json_array. rewrite !str_forallb_app, !newline_indent_ascii.
  rewrite join_ascii; [done| |done].
  by rewrite str_forallb_app, newline_indent_ascii.
Qed.

Lemma json_object_ascii level entries :
  Forall (λ kv, str_forallb is_json_char kv.2 = true) entries →
  str_forallb is_json_char (json_object level entries) = true.
Proof.
  intros Hall. unfold json_object.
  rewrite !str_forallb_app, !newline_indent_ascii.
  rewrite join_ascii; [done| |].
  - by rewrite str_forallb_app, newline_indent_ascii.
  - apply Forall_forall. intros x Hx.
    apply list_elem_of_In, in_map_iff in Hx as (kv & <- & Hkv).
    apply list_elem_of_In in Hkv.
    rewrite !str_forallb_app, json_string_ascii.
    by rewrite (proj1 (Forall_forall _ _) Hall kv Hkv).
Qed.

Lemma json_node_ascii n :
  ∀ level, str_forallb is_json_char (json_node level n) = true.
Proof.
  induction n as [p c|p sub IH] using TreeNode_Forall_ind; intros level.
  - cbn [json_node]. apply json_object_ascii.
    repeat constructor; apply json_string_ascii.
  - cbn [json_node]. apply json_object_ascii.
    repeat constructor; try apply json_string_ascii.
    cbn [snd]. apply json_array_ascii.
    apply Forall_forall. intros x Hx.
    apply list_elem_of_In, in_map_iff in Hx as (n & <- & Hn).
    apply list_elem_of_In in Hn.
    by apply (proj1 (Forall_forall _ _) IH n Hn).
Qed.

(** X16: the text written for the tree holds only printable ASCII
    characters and new lines, whatever the paths and the contents of the
    files: control characters, quotes, backslashes and characters beyond
    the tilde are written escaped. *)
Theorem json_dump_ascii (repo_contents : list TreeNode) :
  str_forallb is_json_char (json_dump repo_contents) = true.
Proof.
  unfold json_dump. apply json_array_ascii.
  apply Forall_forall. intros x Hx.
  apply list_elem_of_In, in_map_iff in Hx as (n & <- & _).
  apply json_node_ascii.
Qed.

Example json_dump_demo :
  json_dump [FileNode "a.py" ("x=" +:+ dquote +:+ "1" +:+ dquote +:+ nl);
             DirNode "c" []]
  = "[" +:+ nl +:+
    "  {" +:+ nl +:+
    "    " +:+ dquote +:+ "type" +:+ dquote +:+ ": "
           +:+ dquote +:+ "file" +:+ dquote +:+ "," +:+ nl +:+
    "    " +:+ dquote +:+ "path" +:+ dquote +:+ ": "
           +:+ dquote +:+ "a.py" +:+ dquote +:+ "," +:+ nl +:+
    "    " +:+ dquote +:+ "content" +:+ dquote +:+ ": "
           +:+ dquote +:+ "x=\" +:+ dquote +:+ "1\" +:+ dquote +:+ "\n"
           +:+ dquote +:+ nl +:+
    "  }," +:+ nl +:+
    "  {" +:+ nl +:+
    "    " +:+ dquote +:+ "type" +:+ dquote +:+ ": "
           +:+ dquote +:+ "dir" +:+ dquote +:+ "," +:+ nl +:+
    "    " +:+ dquote +:+ "path" +:+ dquote +:+ ": "
           +:+ dquote +:+ "c" +:+ dquote +:+ "," +:+ nl +:+
    "    " +:+ dquote +:+ "contents" +:+ dquote +:+ ": []" +:+ nl +:+
    "  }" +:+ nl +:+
    "]".
Proof. vm_compute. reflexivity. Qed.

(** ** [main] *)

Lemma app_snoc5 {A} (l : list A) a b c d e :
  ((((l ++ [a]) ++ [b]) ++ [c]) ++ [d]) ++ [e] = l ++ [a; b; c; d; e].
Proof. by rewrite <-!app_assoc. Qed.

Lemma stdin_le_ret {A} (a : A) : stdin_le (ret a).
Proof. intros w. done. Qed.

Lemma stdin_le_of_result {A} (r : result A) : stdin_le (of_result r).
Proof. intros w. done. Qed.

Lemma stdin_le_bind {A B} (m : M A) (k : A → M B) :
  stdin_le m → (∀ a, stdin_le (k a)) → stdin_le (bind m k).
Proof.
  intros Hm Hk w. unfold bind. specialize (Hm w).
  destruct (m w) as [[a|e] w1]; [|done].
  specialize (Hk a w1). simpl in Hm. lia.
Qed.

Lemma stdin_le_try_except {A} (m : M A) (h : Exc → M A) :
  stdin_le m → (∀ e, stdin_le (h e)) → stdin_le (try_except m h).
Proof.
  intros Hm Hh w. unfold try_except. specialize (Hm w).
  destruct (m w) as [[a|e] w1]; [done|].
  specialize (Hh e w1). simpl in Hm. lia.
Qed.

Lemma stdin_le_print x : stdin_le (print x).
Proof. intros w. done. Qed.

Lemma stdin_le_input x : stdin_le (input x).
Proof.
  intros w. unfold input. simpl.
  destruct (stdin w) eqn:E; simpl; rewrite ?E; simpl; lia.
Qed.

Lemma stdin_le_map_M {A B} (f : A → M B) xs :
  (∀ x, stdin_le (f x)) → stdin_le (map_M f xs).
Proof.
  intros Hf. induction xs as [|x xs IH]; [apply stdin_le_ret|].
  simpl. apply stdin_le_bind; [done|]. intros y.
  apply stdin_le_bind; [done|]. intros ys. apply stdin_le_ret.
Qed.

#[local] Hint Resolve stdin_le_ret stdin_le_print stdin_le_input : keeps.

Section MainProperties.

Variable env : Env.
Variable urlparse : string → result ParseResult.
Variable open_error : Machine → string → option Exc.
Variable depth : nat.

Lemma stdin_le_chat_completion req : stdin_le (chat_completion env req).
Proof. intros w. done. Qed.

Lemma stdin_le_get_or_create name : stdin_le (get_or_create_collection env name).
Proof.
  intros w. unfold get_or_create_collection.
  destruct (collection_error env w name); [done|]. simpl.
  by destruct (db w !! name).
Qed.

Lemma stdin_le_collection_add c d m i : stdin_le (collection_add env c d m i).
Proof.
  intros w. unfold collection_add. by destruct (add_reply env _ _).
Qed.

Lemma stdin_le_collection_query c q k : stdin_le (collection_query env c q k).
Proof. intros w. done. Qed.

Lemma stdin_le_generate query docs n :
  stdin_le (generate_gpt4_response env query docs n).
Proof.
  apply stdin_le_bind.
  - apply stdin_le_map_M. intros doc.
    apply stdin_le_bind; [apply stdin_le_chat_completion|auto with keeps].
  - intros sums. apply stdin_le_bind; [apply stdin_le_of_result|].
    intros context. apply stdin_le_try_except.
    + apply stdin_le_bind; [apply stdin_le_chat_completion|auto with keeps].
    + intros e. apply stdin_le_bind; auto with keeps.
Qed.

Lemma stdin_le_query_vector_db query name k :
  stdin_le (query_vector_db env query name k).
Proof.
  apply stdin_le_bind; [apply stdin_le_get_or_create|]. intros c.
  apply stdin_le_bind; [apply stdin_le_collection_query|auto with keeps].
Qed.

Lemma stdin_le_coerce_top_k t : stdin_le (coerce_top_k t).
Proof. intros w. unfold coerce_top_k. by destruct (negb (isdigit t)). Qed.

Lemma stdin_le_query_main : stdin_le (query_main env).
Proof.
  unfold query_main.
  repeat (apply stdin_le_bind;
          [auto using stdin_le_coerce_top_k, stdin_le_query_vector_db,
             stdin_le_generate with keeps|intros]).
  auto with keeps.
Qed.

Lemma stdin_le_ingest files name :
  stdin_le (ingest_into_vector_db env files name).
Proof.
  apply stdin_le_bind; [apply stdin_le_get_or_create|]. intros c.
  apply stdin_le_bind; [apply stdin_le_collection_add|auto with keeps].
Qed.

(** The first steps of an iteration: the menu, then the choice. *)
Lemma main_iteration_eof s :
  stdin_of s = [] →
  ∃ s', main_iteration env urlparse open_error depth s
        = Some (Raise EOFError, s')
        ∧ m_files s' = m_files s.
Proof.
  unfold stdin_of. intros Hin.
  unfold main_iteration, bindS, liftM, print, input. simpl.
  rewrite Hin. by eexists.
Qed.

Lemma main_iteration_choice s line rest :
  stdin_of s = line :: rest →
  main_iteration env urlparse open_error depth s
  = (if String.eqb (strip_ws line) "1" then
       bindS (liftM (input "Enter the GitHub repository URL: "))
         (λ repo_url,
            bindS (try_exceptS
                     (ingest_workflow env urlparse open_error depth
                        (strip_ws repo_url))
                     (λ e, liftM (print ("An error occurred: "
                                         +:+ exc_message e))))
                  (λ _, retS true))
     else if String.eqb (strip_ws line) "2" then
       bindS (try_exceptS (liftM (query_main env))
                (λ e, liftM (print ("An error occurred during querying: "
                                    +:+ exc_message e))))
             (λ _, retS true)
     else if String.eqb (strip_ws line) "3" then
       bindS (liftM (print "Exiting the program.")) (λ _, retS false)
     else
       bindS (liftM (print "Invalid choice. Please enter 1, 2, or 3."))
             (λ _, retS true))
      (after_menu s rest).
Proof.
  unfold stdin_of. intros Hin.
  unfold main_iteration.
  unfold bindS at 1, liftM at 1, print at 1. simpl.
  unfold bindS at 1, liftM at 1, print at 1. simpl.
  unfold bindS at 1, liftM at 1, print at 1. simpl.
  unfold bindS at 1, liftM at 1, print at 1. simpl.
  unfold bindS at 1, liftM at 1, input at 1. simpl.
  rewrite Hin. unfold after_menu. by rewrite app_snoc5.
Qed.

End MainProperties.

Lemma ms_stdin_le_ret {A} (a : A) : ms_stdin_le (retS a).
Proof. intros s r s' [= _ <-]. done. Qed.

Lemma ms_stdin_le_bind {A B} (m : MS A) (k : A → MS B) :
  ms_stdin_le m → (∀ a, ms_stdin_le (k a)) → ms_stdin_le (bindS m k).
Proof.
  intros Hm Hk s r s' Hrun. unfold bindS in Hrun.
  destruct (m s) as [[[a|e] s1]|] eqn:Hms; [| |done].
  - specialize (Hm _ _ _ Hms). specialize (Hk _ _ _ _ Hrun). lia.
  - injection Hrun as <- <-. by eapply Hm.
Qed.

Lemma ms_stdin_le_try {A} (m : MS A) (h : Exc → MS A) :
  ms_stdin_le m → (∀ e, ms_stdin_le (h e)) → ms_stdin_le (try_exceptS m h).
Proof.
  intros Hm Hh s r s' Hrun. unfold try_exceptS in Hrun.
  destruct (m s) as [[[a|e] s1]|] eqn:Hms; [| |done].
  - injection Hrun as <- <-. by eapply Hm.
  - specialize (Hm _ _ _ Hms). specialize (Hh _ _ _ _ Hrun). lia.
Qed.

Lemma ms_stdin_le_liftM {A} (m : M A) : stdin_le m → ms_stdin_le (liftM m).
Proof.
  intros Hm s r s'. unfold liftM, stdin_of. specialize (Hm (m_world s)).
  destruct (m (m_world s)) as [r1 w1]. by intros [= _ <-].
Qed.

Lemma ms_stdin_le_lift_result {A} (r : result A) : ms_stdin_le (lift_result r).
Proof. intros s r' s' [= _ <-]. done. Qed.

Lemma ms_defined_ret {A} (a : A) : ms_defined (retS a).
Proof. intros s. by eexists. Qed.

Lemma ms_defined_bind {A B} (m : MS A) (k : A → MS B) :
  ms_defined m → (∀ a, ms_defined (k a)) → ms_defined (bindS m k).
Proof.
  intros Hm Hk s. unfold bindS. destruct (Hm s) as [[[a|e] s1] ->];
    [apply Hk|by eexists].
Qed.

Lemma ms_defined_try {A} (m : MS A) (h : Exc → MS A) :
  ms_defined m → (∀ e, ms_defined (h e)) → ms_defined (try_exceptS m h).
Proof.
  intros Hm Hh s. unfold try_exceptS. destruct (Hm s) as [[[a|e] s1] ->];
    [by eexists|apply Hh].
Qed.

Lemma ms_defined_liftM {A} (m : M A) : ms_defined (liftM m).
Proof. intros s. unfold liftM. destruct (m (m_world s)). by eexists. Qed.

Lemma ms_defined_lift_result {A} (r : result A) : ms_defined (lift_result r).
Proof. intros s. by eexists. Qed.

(** A handler that only prints makes a [try] that never raises. *)
Lemma try_print_ok (m : MS unit) (f : Exc → string) s r s' :
  try_exceptS m (λ e, liftM (print (f e))) s = Some (r, s') → r = Ok tt.
Proof.
  unfold try_exceptS.
  destruct (m s) as [[[[]|e] s1]|]; [by intros [= <- _]| |done].
  unfold liftM, print. by intros [= <- _].
Qed.

Section MainTheorems.

Variable env : Env.
Variable urlparse : string → result ParseResult.
Variable open_error : Machine → string → option Exc.
Variable depth : nat.

Abbreviation iteration := (main_iteration env urlparse open_error depth).
Abbreviation workflow := (ingest_workflow env urlparse open_error depth).

Lemma ms_stdin_le_write_json name tree :
  ms_stdin_le (write_json open_error name tree).
Proof.
  intros s r s'. unfold write_json.
  destruct (open_error s name); by intros [= _ <-].
Qed.

Lemma ms_defined_write_json name tree :
  ms_defined (write_json open_error name tree).
Proof.
  intros s. unfold write_json. destruct (open_error s name); by eexists.
Qed.

Lemma ms_stdin_le_get_contents owner repo p :
  ms_stdin_le (liftP (get_contents env depth owner repo p)).
Proof.
  intros s r s'. unfold liftP, stdin_of.
  destruct (get_contents env depth owner repo p (m_world s))
    as [[r1 w1]|] eqn:Hrun; [|done].
  intros [= _ <-]. simpl.
  destruct (get_contents_frame _ _ _ _ _ _ _ _ Hrun) as (-> & _). done.
Qed.

Lemma ms_stdin_le_workflow url : ms_stdin_le (workflow url).
Proof.
  unfold ingest_workflow.
  repeat (apply ms_stdin_le_bind;
          [auto using ms_stdin_le_lift_result, ms_stdin_le_liftM,
             ms_stdin_le_get_contents, ms_stdin_le_write_json with keeps
          |intros]).
  apply ms_stdin_le_liftM, stdin_le_ingest.
Qed.

(** An iteration raises nothing but the [EOFError] of its own [input]. *)
Lemma main_iteration_result s r s' :
  iteration s = Some (r, s') → (∃ b, r = Ok b) ∨ r = Raise EOFError.
Proof.
  destruct (stdin_of s) as [|line rest] eqn:Hin.
  - destruct (main_iteration_eof env urlparse open_error depth s Hin)
      as (s1 & -> & _).
    intros [= <- _]. by right.
  - rewrite (main_iteration_choice _ _ _ _ _ _ _ Hin).
    destruct (String.eqb (strip_ws line) "1").
    { unfold bindS at 1, liftM at 1, input. simpl.
      destruct rest as [|url rest]; [intros [= <- _]; by right|].
      unfold bindS.
      destruct (try_exceptS _ _ _) as [[[u|e] s1]|] eqn:Htry; [| |done].
      - intros [= <- _]. left. by eexists.
      - by apply try_print_ok in Htry. }
    destruct (String.eqb (strip_ws line) "2").
    { unfold bindS.
      destruct (try_exceptS _ _ _) as [[[u|e] s1]|] eqn:Htry; [| |done].
      - intros [= <- _]. left. by eexists.
      - by apply try_print_ok in Htry. }
    destruct (String.eqb (strip_ws line) "3");
      unfold bindS, liftM, print, retS; simpl; intros [= <- _];
      left; by eexists.
Qed.

(** How an iteration ends: the loop goes on, or it is left after the
    choice 3, or the input ended at one of the two prompts of [main]. *)
Lemma main_iteration_outcome s r s' :
  iteration s = Some (r, s') →
  r = Ok true
  ∨ (r = Ok false
     ∧ last (stdout (m_world s')) = Some "Exiting the program.")
  ∨ (r = Raise EOFError
     ∧ stdin_of s' = []
     ∧ (last (stdout (m_world s')) = Some "Enter your choice (1/2/3): "
        ∨ last (stdout (m_world s'))
          = Some "Enter the GitHub repository URL: ")).
Proof.
  destruct (stdin_of s) as [|line rest] eqn:Hin.
  - unfold stdin_of in Hin.
    unfold main_iteration, bindS, liftM, print, input. simpl.
    rewrite Hin. intros [= <- <-]. right. right.
    split_and!; [done|done|]. left. simpl. by rewrite last_snoc.
  - rewrite (main_iteration_choice _ _ _ _ _ _ _ Hin).
    destruct (String.eqb (strip_ws line) "1").
    { unfold bindS at 1, liftM at 1, input. simpl.
      destruct rest as [|url rest].
      { intros [= <- <-]. right. right.
        split_and!; [done|done|]. right. simpl. by rewrite last_snoc. }
      unfold bindS.
      destruct (try_exceptS _ _ _) as [[[u|e] s1]|] eqn:Htry; [| |done].
      - intros [= <- _]. by left.
      - by apply try_print_ok in Htry. }
    destruct (String.eqb (strip_ws line) "2").
    { unfold bindS.
      destruct (try_exceptS _ _ _) as [[[u|e] s1]|] eqn:Htry; [| |done].
      - intros [= <- _]. by left.
      - by apply try_print_ok in Htry. }
    destruct (String.eqb (strip_ws line) "3");
      unfold bindS, liftM, print, retS; simpl; intros [= <- <-].
    + right. left. split; [done|]. simpl. by rewrite last_snoc.
    + by left.
Qed.

(** X17: whatever the services do, [main] lets no exception out but the
    [EOFError] of its own prompts.  When it stops, either it has returned
    after the choice 3, its last words being those of the exit, or it has
    raised [EOFError] with the input at its end and the last thing
    printed is the prompt of the menu or that of the repository URL.  An
    exception raised by the query workflow (the end of the input at one of
    its prompts included) or by the ingest workflow does not leave the
    loop: its message is printed after the words of the handler and the
    loop goes on from there. *)
Theorem main_only_eof :
  (∀ fuel s r s',
     main env urlparse open_error depth fuel s = Some (r, s') →
     (r = Ok tt ∧ last (stdout (m_world s')) = Some "Exiting the program.")
     ∨ (r = Raise EOFError
        ∧ stdin_of s' = []
        ∧ (last (stdout (m_world s')) = Some "Enter your choice (1/2/3): "
           ∨ last (stdout (m_world s'))
             = Some "Enter the GitHub repository URL: ")))
  ∧ (∀ fuel s line rest e s1,
       stdin_of s = line :: rest →
       strip_ws line = "2" →
       liftM (query_main env) (after_menu s rest) = Some (Raise e, s1) →
       main env urlparse open_error depth (S fuel) s
       = main env urlparse open_error depth fuel
           (reported "An error occurred during querying: " e s1))
  ∧ (∀ fuel s line url rest e s1,
       stdin_of s = line :: url :: rest →
       strip_ws line = "1" →
       workflow (strip_ws url) (after_url (after_menu s (url :: rest)) rest)
       = Some (Raise e, s1) →
       main env urlparse open_error depth (S fuel) s
       = main env urlparse open_error depth fuel
           (reported "An error occurred: " e s1)).
Proof.
  split_and!.
  - intros fuel. induction fuel as [|fuel IH]; intros s r s'; [done|].
    cbn [main]. unfold bindS at 1.
    destruct (iteration s) as [[[continue|e] s1]|] eqn:Hit; [| |done].
    + destruct continue; [apply IH|]. intros [= <- <-].
      destruct (main_iteration_outcome _ _ _ Hit)
        as [Hr|[[_ Hlast]|[Hr _]]]; [done| |done].
      by left.
    + intros [= <- <-].
      destruct (main_iteration_outcome _ _ _ Hit)
        as [Hr|[[Hr _]|[Hr Hlast]]]; [done|done|].
      right. by injection Hr as ->.
  - intros fuel s line rest e s1 Hin Hline Hrun.
    cbn [main]. unfold bindS at 1.
    rewrite (main_iteration_choice _ _ _ _ _ _ _ Hin), Hline. simpl.
    unfold bindS at 1, try_exceptS. rewrite Hrun.
    unfold liftM at 1, print, retS. done.
  - intros fuel s line url rest e s1 Hin Hline Hrun.
    cbn [main]. unfold bindS at 1.
    rewrite (main_iteration_choice _ _ _ _ _ _ _ Hin), Hline. simpl.
    unfold bindS at 1, liftM at 1, input. simpl.
    unfold bindS at 1, try_exceptS.
    change {| m_world := set_stdin rest _; m_files := m_files s |}
      with (after_url (after_menu s (url :: rest)) rest).
    rewrite Hrun. unfold liftM at 1, print, retS. done.
Qed.

(** An iteration after which the loop goes on has read a line. *)
Lemma main_iteration_progress s s' :
  iteration s = Some (Ok true, s') →
  (length (stdin_of s') < length (stdin_of s))%nat.
Proof.
  destruct (stdin_of s) as [|line rest] eqn:Hin.
  - destruct (main_iteration_eof env urlparse open_error depth s Hin)
      as (s1 & -> & _). done.
  - rewrite (main_iteration_choice _ _ _ _ _ _ _ Hin).
    assert (Hrest : stdin_of (after_menu s rest) = rest) by done.
    intros Hrun.
    assert (length (stdin_of s') ≤ length (stdin_of (after_menu s rest)))%nat
      as Hle; [|rewrite Hrest in Hle; simpl; lia].
    revert Hrun. generalize (after_menu s rest). intros s0 Hrun.
    destruct (String.eqb (strip_ws line) "1").
    { revert Hrun. apply ms_stdin_le_bind.
      - apply ms_stdin_le_liftM, stdin_le_input.
      - intros url. apply ms_stdin_le_bind; [|intros; apply ms_stdin_le_ret].
        apply ms_stdin_le_try; [apply ms_stdin_le_workflow|].
        intros e. apply ms_stdin_le_liftM, stdin_le_print. }
    destruct (String.eqb (strip_ws line) "2").
    { revert Hrun.
      apply ms_stdin_le_bind; [|intros; apply ms_stdin_le_ret].
      apply ms_stdin_le_try.
      - apply ms_stdin_le_liftM, stdin_le_query_main.
      - intros e. apply ms_stdin_le_liftM, stdin_le_print. }
    destruct (String.eqb (strip_ws line) "3"); revert Hrun;
      (apply ms_stdin_le_bind; [|intros; apply ms_stdin_le_ret]);
      apply ms_stdin_le_liftM, stdin_le_print.
Qed.

Section Termination.

(** The recursion depth given to [get_contents] suffices for the
    repositories of the host. *)
Hypothesis depth_suffices : ∀ owner repo w,
  is_Some (get_contents env depth owner repo "" w).

Lemma ms_defined_workflow url : ms_defined (workflow url).
Proof.
  unfold ingest_workflow.
  apply ms_defined_bind; [apply ms_defined_lift_result|]. intros owner_repo.
  apply ms_defined_bind; [apply ms_defined_liftM|]. intros _.
  apply ms_defined_bind.
  { intros s. unfold liftP.
    destruct (depth_suffices owner_repo.1 owner_repo.2 (m_world s))
      as [[r w] ->].
    by eexists. }
  intros tree.
  apply ms_defined_bind; [apply ms_defined_write_json|]. intros _.
  apply ms_defined_bind; [apply ms_defined_liftM|]. intros _.
  apply ms_defined_liftM.
Qed.

Lemma ms_defined_iteration : ms_defined iteration.
Proof.
  unfold main_iteration.
  repeat (apply ms_defined_bind; [apply ms_defined_liftM|intros]).
  repeat case_match;
    repeat (apply ms_defined_bind;
            [first [apply ms_defined_liftM
                   |apply ms_defined_try;
                      [first [apply ms_defined_workflow|apply ms_defined_liftM]
                      |intros; apply ms_defined_liftM]]
            |intros]);
    apply ms_defined_ret.
Qed.

(** X18: when the recursion depth suffices, [main] stops on every input:
    one iteration more than there are lines to read is enough, since
    every iteration that does not leave the loop reads at least one
    line. *)
Theorem main_terminates (fuel : nat) (s : Machine) :
  (length (stdin_of s) < fuel)%nat →
  ∃ r s', main env urlparse open_error depth fuel s = Some (r, s')
          ∧ (r = Ok tt ∨ r = Raise EOFError).
Proof.
  revert s. induction fuel as [|fuel IH]; intros s Hlen; [lia|].
  cbn [main]. unfold bindS at 1.
  destruct (ms_defined_iteration s) as [[[continue|e] s1] Hit]; rewrite Hit.
  - destruct continue.
    + apply IH. pose proof (main_iteration_progress _ _ Hit). lia.
    + eexists _, _. split; [done|by left].
  - eexists _, _. split; [done|].
    destruct (main_iteration_result _ _ _ Hit) as [[b Hb]|Hb]; [done|].
    right. by injection Hb as ->.
Qed.

End Termination.

(** X19: lines that are none of the three choices are answered with the
    message of the invalid choice and skipped: on such lines followed by
    the choice 3, [main] returns after reading them, with the rest of the
    input left, and has made no request to the host, the LLM or the
    vector store and written no file. *)
Theorem main_invalid_then_exit (bad : list string) (line3 : string)
    (rest : list string) (fuel : nat) (s : Machine) :
  stdin_of s = bad ++ line3 :: rest →
  Forall (λ line, is_invalid_choice line = true) bad →
  strip_ws line3 = "3" →
  (length bad < fuel)%nat →
  ∃ s', main env urlparse open_error depth fuel s = Some (Ok tt, s')
        ∧ stdin_of s' = rest
        ∧ m_files s' = m_files s
        ∧ http_log (m_world s') = http_log (m_world s)
        ∧ llm_log (m_world s') = llm_log (m_world s)
        ∧ store_log (m_world s') = store_log (m_world s)
        ∧ db (m_world s') = db (m_world s).
Proof.
  intros Hin Hbad H3. revert fuel s Hin.
  induction Hbad as [|line bad Hline Hbad IH]; intros fuel s Hin Hlen.
  - destruct fuel as [|fuel]; [simpl in Hlen; lia|].
    cbn [main]. unfold bindS at 1.
    rewrite (main_iteration_choice _ _ _ _ _ _ _ Hin). rewrite H3. simpl.
    by eexists.
  - destruct fuel as [|fuel]; [simpl in Hlen; lia|].
    cbn [main]. unfold bindS at 1.
    rewrite (main_iteration_choice _ _ _ _ _ _ _ Hin).
    unfold is_invalid_choice in Hline.
    apply andb_prop in Hline as [[H1 H2]%andb_prop H3'].
    apply negb_true_iff in H1, H2, H3'. rewrite H1, H2, H3'.
    unfold bindS at 1, liftM, print, retS. simpl.
    edestruct (IH fuel) as (s' & Hrun & Hrest & Hfiles & Hlogs);
      [|simpl in Hlen; lia|rewrite Hrun; by exists s'].
    done.
Qed.

(** X20: when the URL typed for an ingestion parses to a path with fewer
    than two non-empty segments, the iteration reports the error of
    [get_repo_info] and the loop goes on: no request is made, no file is
    written and the vector store is not called. *)
Theorem main_iteration_invalid_url (s : Machine) (line url : string)
    (rest : list string) (parsed : ParseResult) :
  stdin_of s = line :: url :: rest →
  strip_ws line = "1" →
  urlparse (strip_ws url) = Ok parsed →
  (length (path_segments (pr_path parsed)) < 2)%nat →
  ∃ s', iteration s = Some (Ok true, s')
        ∧ stdin_of s' = rest
        ∧ last (stdout (m_world s'))
          = Some "An error occurred: Invalid GitHub repository URL."
        ∧ m_files s' = m_files s
        ∧ http_log (m_world s') = http_log (m_world s)
        ∧ store_log (m_world s') = store_log (m_world s)
        ∧ db (m_world s') = db (m_world s).
Proof.
  intros Hin Hline Hparse Hseg.
  rewrite (main_iteration_choice _ _ _ _ _ _ _ Hin). rewrite Hline. simpl.
  unfold bindS at 1, liftM at 1, input. simpl.
  unfold bindS at 1, try_exceptS, ingest_workflow.
  unfold bindS at 1, lift_result, get_repo_info. rewrite Hparse.
  rewrite bool_decide_eq_true_2 by (by apply strip_split_length).
  unfold liftM, print, retS. simpl.
  eexists. split; [done|]. simpl. split_and!; try done.
  by rewrite last_snoc.
Qed.


End MainTheorems.

Lemma empty_host_depth owner repo w :
  is_Some (get_contents empty_host_env 1 owner repo "" w).
Proof. by eexists. Qed.

Lemma main_only_eof_witness :
  (∃ s', main (demo_env chat_up) py_urlparse open_ok 2 5
           (machine0 ["2"; "t"]) = Some (Raise EOFError, s')
         ∧ last (stdout (m_world s')) = Some "Enter your choice (1/2/3): ")
  ∧ (∃ s1, main (demo_env chat_up) py_urlparse open_ok 2 5
             (machine0 ["2"; "t"])
           = main (demo_env chat_up) py_urlparse open_ok 2 4
               (reported "An error occurred during querying: " EOFError s1))
  ∧ (∃ s1, main (demo_env chat_up) py_urlparse open_ok 2 5
             (machine0 ["1"; "https://github.com/octocat/"])
           = main (demo_env chat_up) py_urlparse open_ok 2 4
               (reported "An error occurred: " InvalidRepositoryURL s1)).
Proof.
  split_and!.
  - destruct (main (demo_env chat_up) py_urlparse open_ok 2 5
                (machine0 ["2"; "t"])) as [[r s']|] eqn:Hrun;
      [|by vm_compute in Hrun].
    destruct (proj1 (main_only_eof (demo_env chat_up) py_urlparse open_ok 2)
                5%nat (machine0 ["2"; "t"]) r s' Hrun)
      as [[Hr Hlast]|(Hr & _ & Hlast)].
    + vm_compute in Hrun. congruence.
    + subst r. exists s'. split; [reflexivity|].
      destruct Hlast as [Hlast|Hlast]; [exact Hlast|].
      vm_compute in Hrun. injection Hrun as <-. by vm_compute in Hlast.
  - eexists.
    apply (proj1 (proj2 (main_only_eof (demo_env chat_up) py_urlparse
                           open_ok 2))
             4%nat (machine0 ["2"; "t"]) "2" ["t"] EOFError _
             eq_refl eq_refl).
    vm_compute. reflexivity.
  - eexists.
    apply (proj2 (proj2 (main_only_eof (demo_env chat_up) py_urlparse
                           open_ok 2))
             4%nat (machine0 ["1"; "https://github.com/octocat/"]) "1"
             "https://github.com/octocat/" [] InvalidRepositoryURL _
             eq_refl eq_refl).
    vm_compute. reflexivity.
Defined.

Example main_reports_query_error :
  main (demo_env chat_up) py_urlparse open_ok 2 5 (machine0 ["2"; "t"])
  = main (demo_env chat_up) py_urlparse open_ok 2 4
      (reported "An error occurred during querying: " EOFError
         {| m_world :=
              (query_main (demo_env chat_up)
                 (m_world (after_menu (machine0 ["2"; "t"]) ["t"]))).2;
            m_files := ∅ |})
  ∧ last (stdout (m_world
                    (reported "An error occurred during querying: " EOFError
                       (machine0 []))))
    = Some "An error occurred during querying: EOF when reading a line".
Proof. split; by vm_compute. Qed.

Lemma main_terminates_witness :
  ∃ r s', main empty_host_env py_urlparse open_ok 1 4
            (machine0 ["1"; "https://github.com/o/r"; "3"]) = Some (r, s')
          ∧ (r = Ok tt ∨ r = Raise EOFError).
Proof.
  apply (main_terminates empty_host_env py_urlparse open_ok 1
           empty_host_depth 4).
  simpl. lia.
Defined.

Lemma main_invalid_then_exit_witness :
  ∃ s', main (demo_env chat_up) py_urlparse open_ok 2 3
          (machine0 ["hello"; ""; " 3 "; "1"]) = Some (Ok tt, s')
        ∧ stdin_of s' = ["1"].
Proof.
  destruct (main_invalid_then_exit (demo_env chat_up) py_urlparse open_ok 2
              ["hello"; ""] " 3 " ["1"] 3
              (machine0 ["hello"; ""; " 3 "; "1"]))
    as (s' & Hrun & Hrest & _); [reflexivity| |reflexivity|simpl; lia|].
  - by repeat constructor.
  - exists s'. split; assumption.
Defined.

Lemma main_iteration_invalid_url_witness :
  ∃ s', main_iteration (demo_env chat_up) py_urlparse open_ok 2
          (machine0 ["1"; "https://github.com/octocat/"; "3"])
        = Some (Ok true, s')
        ∧ stdin_of s' = ["3"].
Proof.
  destruct (main_iteration_invalid_url (demo_env chat_up) py_urlparse
              open_ok 2
              (machine0 ["1"; "https://github.com/octocat/"; "3"])
              "1" "https://github.com/octocat/" ["3"] octocat_parsed)
    as (s' & Hrun & Hrest & _);
    [reflexivity|reflexivity|reflexivity|by vm_compute|].
  exists s'. split; assumption.
Defined.

